(** * reddit-clone: the Sequelize data model of [reddit.js]

    [reddit.js] declares three models ([user], [content], [vote]) and two
    associations, and asks Sequelize to create the tables ([db.sync()]).
    This development embeds

    - the declarations themselves, as a script of registry transformers
      ([define], [hasMany], [belongsToMany]) that computes the table
      definitions Sequelize derives from them (README.md prints the one of
      [votes]);
    - the store those tables form, with the statements the README uses on it
      ([create], [findById], deletion with the declared foreign-key actions),
      each checking the constraints recorded in the computed schema;
    - the three data functions the README asks for ([createNewUser],
      [createNewContent], [voteOnContent]), which the repository does not
      contain: they are modelled from the specification.
*)

From Stdlib Require Import ZArith List String Bool Lia.
Import ListNotations.
Open Scope string_scope.
Open Scope list_scope.
Open Scope Z_scope.

(* ================================================================= *)
(** ** Results and errors *)

Inductive Result (E A : Type) : Type :=
| Ok (a : A)
| Err (e : E).
Arguments Ok {E A} a.
Arguments Err {E A} e.

Definition bind {E A B} (r : Result E A) (k : A -> Result E B) : Result E B :=
  match r with
  | Ok a => k a
  | Err e => Err e
  end.

Notation "x <- r ;; k" := (bind r (fun x => k))
  (at level 61, r at next level, right associativity).
Notation "r ;;; k" := (bind r (fun _ => k))
  (at level 61, right associativity).

(** What the database (through Sequelize) answers when a statement breaks a
    constraint of the table it targets. *)
Inductive DbError : Type :=
| NotNullViolation (table column : string)
| UniqueConstraintError (table : string) (fields : list string)
| ForeignKeyConstraintError (table column : string).

Definition DbResult := Result DbError.

(* ================================================================= *)
(** ** The schema layer: what [db.define] and the associations compute *)

Inductive DataType : Type := STRING | BOOLEAN | INTEGER | DATE.

Inductive ReferentialAction : Type := CASCADE | SET_NULL.

Record Attribute : Type := {
  type : DataType;
  allowNull : bool;
  unique : bool;
  primaryKey : bool;
  autoIncrement : bool
}.

Record Reference : Type := {
  model : string;
  key : string;
  onDelete : ReferentialAction;
  onUpdate : ReferentialAction
}.

Record Column : Type := {
  field : string;
  attribute : Attribute;
  references : option Reference
}.

Record Model : Type := {
  name : string;
  tableName : string;
  columns : list Column
}.

(** The registry of models held by the connection object [db]. *)
Definition Registry := list Model.

(** [username: Sequelize.STRING]: an attribute given by its type alone takes
    every option at its default, that is a nullable column without a
    uniqueness constraint (README.md shows the outcome for [upVote]:
    [`upVote` tinyint(1) DEFAULT NULL]). *)
Definition shorthand (t : DataType) : Attribute :=
  {| type := t; allowNull := true; unique := false;
     primaryKey := false; autoIncrement := false |}.

Definition plain_column (f : string) (t : DataType) : Column :=
  {| field := f; attribute := shorthand t; references := None |}.

(** The columns every defined model receives: the auto-incremented [id] and
    the two timestamps ([`createdAt` datetime NOT NULL]). *)
Definition id_column : Column :=
  {| field := "id";
     attribute := {| type := INTEGER; allowNull := false; unique := false;
                     primaryKey := true; autoIncrement := true |};
     references := None |}.

Definition timestamp_column (f : string) : Column :=
  {| field := f;
     attribute := {| type := DATE; allowNull := false; unique := false;
                     primaryKey := false; autoIncrement := false |};
     references := None |}.

(** Tables are named by the plural of the model ([users], [contents],
    [votes]). *)
Definition pluralize (n : string) : string := (n ++ "s")%string.

(** [db.define(name, attributes)] *)
Definition define (n : string) (attrs : list (string * DataType))
    (db : Registry) : Registry :=
  (db ++ [ {| name := n;
              tableName := pluralize n;
              columns := id_column
                           :: map (fun a => plain_column (fst a) (snd a)) attrs
                           ++ [timestamp_column "createdAt";
                               timestamp_column "updatedAt"] |} ])%list.

Definition update_model (n : string) (f : Model -> Model) (db : Registry)
    : Registry :=
  map (fun m => if String.eqb (name m) n then f m else m) db.

Definition add_columns (cs : list Column) (m : Model) : Model :=
  {| name := name m; tableName := tableName m; columns := (columns m ++ cs)%list |}.

(** [Source.hasMany(Target)] adds the foreign key [<source>Id] to the target's
    table.  No option is passed in [reddit.js], so the key is an ordinary
    nullable attribute and the association takes Sequelize's defaults for a
    one-to-many association: [ON DELETE SET NULL ON UPDATE CASCADE]. *)
Definition hasMany (source target : string) (db : Registry) : Registry :=
  update_model target
    (add_columns
       [ {| field := (source ++ "Id")%string;
            attribute := shorthand INTEGER;
            references := Some {| model := source; key := "id";
                                  onDelete := SET_NULL;
                                  onUpdate := CASCADE |} |} ])
    db.

(** The key columns of a join table: part of its primary key, hence
    [NOT NULL], and [ON DELETE CASCADE ON UPDATE CASCADE] (README.md,
    [votes_ibfk_1] and [votes_ibfk_2]). *)
Definition join_key (target : string) : Column :=
  {| field := (target ++ "Id")%string;
     attribute := {| type := INTEGER; allowNull := false; unique := false;
                     primaryKey := true; autoIncrement := false |};
     references := Some {| model := target; key := "id";
                           onDelete := CASCADE; onUpdate := CASCADE |} |}.

Definition drop_primary_key (m : Model) : Model :=
  {| name := name m; tableName := tableName m;
     columns := filter (fun c => negb (primaryKey (attribute c))) (columns m) |}.

(** [Source.belongsToMany(Target, {through: Through})] turns the through model
    into the join table: "a table without the ubiquitous auto-incrementing
    primary key id", whose primary key is made of the two foreign keys. *)
Definition belongsToMany (source target through : string) (db : Registry)
    : Registry :=
  update_model through
    (fun m => add_columns [join_key target; join_key source]
                          (drop_primary_key m))
    db.

(** [reddit.js], statement by statement. *)
Definition reddit_js : Registry :=
  let db := [] in
  let db := define "user" [("username", STRING);
                           ("password", STRING);
                           ("email", STRING)] db in
  let db := define "content" [("url", STRING);
                              ("title", STRING)] db in
  let db := define "vote" [("upVote", BOOLEAN)] db in
  let db := hasMany "user" "content" db in
  let db := belongsToMany "content" "user" "vote" db in
  db.

(** *** Reading the computed schema *)

Definition find_model (n : string) (db : Registry) : option Model :=
  find (fun m => String.eqb (name m) n) db.

Definition find_column (n f : string) (db : Registry) : option Column :=
  match find_model n db with
  | Some m => find (fun c => String.eqb (field c) f) (columns m)
  | None => None
  end.

Definition table_of (n : string) : string :=
  match find_model n reddit_js with
  | Some m => tableName m
  | None => n
  end.

Definition nullable (n f : string) : bool :=
  match find_column n f reddit_js with
  | Some c => allowNull (attribute c)
  | None => true
  end.

Definition is_unique (n f : string) : bool :=
  match find_column n f reddit_js with
  | Some c => unique (attribute c)
  | None => false
  end.

Definition primary_key (n : string) : list string :=
  match find_model n reddit_js with
  | Some m => map field (filter (fun c => primaryKey (attribute c)) (columns m))
  | None => []
  end.

Definition on_delete (n f : string) : option ReferentialAction :=
  match find_column n f reddit_js with
  | Some c => option_map onDelete (references c)
  | None => None
  end.

Definition has_reference (n f : string) : bool :=
  match on_delete n f with
  | Some _ => true
  | None => false
  end.

(* ================================================================= *)
(** ** Rows and the store created by [db.sync()] *)

(** A missing attribute of the object handed to [create] is SQL [NULL]:
    [None]. *)
Module user.
Record values : Type := {
  username : option string;
  password : option string;
  email : option string
}.
Record row : Type := {
  id : Z;
  data : values;
  createdAt : Z;
  updatedAt : Z
}.
End user.

Module content.
Record values : Type := {
  url : option string;
  title : option string;
  userId : option Z
}.
Record row : Type := {
  id : Z;
  data : values;
  createdAt : Z;
  updatedAt : Z
}.
Definition owner (r : row) : option Z := userId (data r).
End content.

(** [votes] has no [id]; its two keys are
    [int(11) NOT NULL], so they are plain integers. *)
Module vote.
Record values : Type := {
  upVote : option bool;
  userId : Z;
  contentId : Z
}.
Record row : Type := {
  data : values;
  createdAt : Z;
  updatedAt : Z
}.
Definition pair (r : row) : Z * Z := (userId (data r), contentId (data r)).
End vote.

Record Store : Type := {
  users : list user.row;
  contents : list content.row;
  votes : list vote.row;
  users_AUTO_INCREMENT : Z;
  contents_AUTO_INCREMENT : Z
}.

(** [db.sync()] on an empty database: three empty tables. *)
Definition sync : Store :=
  {| users := []; contents := []; votes := [];
     users_AUTO_INCREMENT := 1; contents_AUTO_INCREMENT := 1 |}.

(* ================================================================= *)
(** ** Constraint checks, driven by the computed schema *)

Definition not_null {A} (n f : string) (v : option A) : DbResult unit :=
  match v with
  | Some _ => Ok tt
  | None => if nullable n f then Ok tt
            else Err (NotNullViolation (table_of n) f)
  end.

Definition holds {A} (eqb : A -> A -> bool) (x : A) (o : option A) : bool :=
  match o with
  | Some y => eqb x y
  | None => false
  end.

Definition check_unique {A} (eqb : A -> A -> bool) (n f : string)
    (v : option A) (stored : list (option A)) : DbResult unit :=
  match v with
  | Some x => if is_unique n f && existsb (holds eqb x) stored
              then Err (UniqueConstraintError (table_of n) [f])
              else Ok tt
  | None => Ok tt
  end.

Definition check_primary_key {K} (eqb : K -> K -> bool) (n : string)
    (k : K) (stored : list K) : DbResult unit :=
  if existsb (eqb k) stored
  then Err (UniqueConstraintError (table_of n) (primary_key n))
  else Ok tt.

Definition check_foreign_key (n f : string) (v : option Z) (ids : list Z)
    : DbResult unit :=
  match v with
  | Some k => if has_reference n f && negb (existsb (Z.eqb k) ids)
              then Err (ForeignKeyConstraintError (table_of n) f)
              else Ok tt
  | None => Ok tt
  end.

Definition pair_eqb (p q : Z * Z) : bool :=
  (fst p =? fst q) && (snd p =? snd q).

(* ================================================================= *)
(** ** Statements on the store *)

Definition user_ids (s : Store) : list Z := map user.id (users s).
Definition content_ids (s : Store) : list Z := map content.id (contents s).
Definition vote_pairs (s : Store) : list (Z * Z) := map vote.pair (votes s).

(** The row an insert builds: the next identifier of the table, the values
    given, and both timestamps at the time of the insert. *)
Definition new_user (now : Z) (v : user.values) (s : Store) : user.row :=
  {| user.id := users_AUTO_INCREMENT s; user.data := v;
     user.createdAt := now; user.updatedAt := now |}.

Definition new_content (now : Z) (v : content.values) (s : Store)
    : content.row :=
  {| content.id := contents_AUTO_INCREMENT s; content.data := v;
     content.createdAt := now; content.updatedAt := now |}.

Definition new_vote (now : Z) (v : vote.values) : vote.row :=
  {| vote.data := v; vote.createdAt := now; vote.updatedAt := now |}.

(** The store once the row is in its table. *)
Definition add_user (r : user.row) (s : Store) : Store :=
  {| users := users s ++ [r];
     contents := contents s;
     votes := votes s;
     users_AUTO_INCREMENT := users_AUTO_INCREMENT s + 1;
     contents_AUTO_INCREMENT := contents_AUTO_INCREMENT s |}.

Definition add_content (r : content.row) (s : Store) : Store :=
  {| users := users s;
     contents := contents s ++ [r];
     votes := votes s;
     users_AUTO_INCREMENT := users_AUTO_INCREMENT s;
     contents_AUTO_INCREMENT := contents_AUTO_INCREMENT s + 1 |}.

Definition add_vote (r : vote.row) (s : Store) : Store :=
  {| users := users s;
     contents := contents s;
     votes := votes s ++ [r];
     users_AUTO_INCREMENT := users_AUTO_INCREMENT s;
     contents_AUTO_INCREMENT := contents_AUTO_INCREMENT s |}.

(** [User.create(values)]: [INSERT INTO users]. *)
Definition User_create (now : Z) (v : user.values) (s : Store)
    : DbResult (user.row * Store) :=
  not_null "user" "username" (user.username v) ;;;
  not_null "user" "password" (user.password v) ;;;
  not_null "user" "email" (user.email v) ;;;
  check_unique String.eqb "user" "username" (user.username v)
    (map (fun r => user.username (user.data r)) (users s)) ;;;
  check_unique String.eqb "user" "password" (user.password v)
    (map (fun r => user.password (user.data r)) (users s)) ;;;
  check_unique String.eqb "user" "email" (user.email v)
    (map (fun r => user.email (user.data r)) (users s)) ;;;
  let r := new_user now v s in
  check_primary_key Z.eqb "user" (user.id r) (user_ids s) ;;;
  Ok (r, add_user r s).

(** [Content.create(values)], also what [user.addContent({url, title})] of
    the README issues, with [userId] filled in: [INSERT INTO contents]. *)
Definition Content_create (now : Z) (v : content.values) (s : Store)
    : DbResult (content.row * Store) :=
  not_null "content" "url" (content.url v) ;;;
  not_null "content" "title" (content.title v) ;;;
  not_null "content" "userId" (content.userId v) ;;;
  check_unique String.eqb "content" "url" (content.url v)
    (map (fun r => content.url (content.data r)) (contents s)) ;;;
  check_unique String.eqb "content" "title" (content.title v)
    (map (fun r => content.title (content.data r)) (contents s)) ;;;
  let r := new_content now v s in
  check_primary_key Z.eqb "content" (content.id r) (content_ids s) ;;;
  check_foreign_key "content" "userId" (content.userId v) (user_ids s) ;;;
  Ok (r, add_content r s).

(** [INSERT INTO votes]: the statement behind [addVote].  The primary key
    [(userId, contentId)] is checked by the table itself. *)
Definition Vote_create (now : Z) (v : vote.values) (s : Store)
    : DbResult (vote.row * Store) :=
  not_null "vote" "upVote" (vote.upVote v) ;;;
  let r := new_vote now v in
  check_primary_key pair_eqb "vote" (vote.pair r) (vote_pairs s) ;;;
  check_foreign_key "vote" "userId" (Some (vote.userId v)) (user_ids s) ;;;
  check_foreign_key "vote" "contentId" (Some (vote.contentId v))
    (content_ids s) ;;;
  Ok (r, add_vote r s).

(** [User.findById(id)], [Content.findById(id)] and the lookup of the vote
    of a pair. *)
Definition User_findById (i : Z) (s : Store) : option user.row :=
  find (fun r => user.id r =? i) (users s).

Definition Content_findById (i : Z) (s : Store) : option content.row :=
  find (fun r => content.id r =? i) (contents s).

Definition Vote_find (uid cid : Z) (s : Store) : option vote.row :=
  find (fun r => pair_eqb (vote.pair r) (uid, cid)) (votes s).

(** *** Deletion, with the foreign-key actions of the schema *)

(** Rows of [votes] that refer to a deleted row through key column [f]. *)
Definition votes_after_delete (f : string) (refers : vote.row -> bool)
    (vs : list vote.row) : list vote.row :=
  match on_delete "vote" f with
  | Some CASCADE => filter (fun r => negb (refers r)) vs
  | Some SET_NULL => vs
  | None => vs
  end.

Definition votes_of_user (uid : Z) (r : vote.row) : bool :=
  vote.userId (vote.data r) =? uid.

Definition votes_on_content (cid : Z) (r : vote.row) : bool :=
  vote.contentId (vote.data r) =? cid.

(** [DELETE FROM contents WHERE id = cid] *)
Definition Content_destroy (cid : Z) (s : Store) : Store :=
  {| users := users s;
     contents := filter (fun r => negb (content.id r =? cid)) (contents s);
     votes := votes_after_delete "contentId" (votes_on_content cid) (votes s);
     users_AUTO_INCREMENT := users_AUTO_INCREMENT s;
     contents_AUTO_INCREMENT := contents_AUTO_INCREMENT s |}.

Definition owned_by (uid : Z) (r : content.row) : bool :=
  holds Z.eqb uid (content.owner r).

Definition clear_owner (r : content.row) : content.row :=
  {| content.id := content.id r;
     content.data := {| content.url := content.url (content.data r);
                        content.title := content.title (content.data r);
                        content.userId := None |};
     content.createdAt := content.createdAt r;
     content.updatedAt := content.updatedAt r |}.

(** What the foreign key [contents.userId] does when user [uid] goes. *)
Definition contents_after_user_delete (uid : Z) (s : Store) : Store :=
  match on_delete "content" "userId" with
  | Some CASCADE =>
      fold_left (fun s' cid => Content_destroy cid s')
                (map content.id (filter (owned_by uid) (contents s))) s
  | Some SET_NULL =>
      {| users := users s;
         contents := map (fun r => if owned_by uid r then clear_owner r else r)
                         (contents s);
         votes := votes s;
         users_AUTO_INCREMENT := users_AUTO_INCREMENT s;
         contents_AUTO_INCREMENT := contents_AUTO_INCREMENT s |}
  | None => s
  end.

(** [DELETE FROM users WHERE id = uid] *)
Definition User_destroy (uid : Z) (s : Store) : Store :=
  let s1 := contents_after_user_delete uid s in
  {| users := filter (fun r => negb (user.id r =? uid)) (users s1);
     contents := contents s1;
     votes := votes_after_delete "userId" (votes_of_user uid) (votes s1);
     users_AUTO_INCREMENT := users_AUTO_INCREMENT s1;
     contents_AUTO_INCREMENT := contents_AUTO_INCREMENT s1 |}.

(** [DELETE FROM votes WHERE userId = uid AND contentId = cid] *)
Definition Vote_destroy (uid cid : Z) (s : Store) : Store :=
  {| users := users s;
     contents := contents s;
     votes := filter (fun r => negb (pair_eqb (vote.pair r) (uid, cid)))
                     (votes s);
     users_AUTO_INCREMENT := users_AUTO_INCREMENT s;
     contents_AUTO_INCREMENT := contents_AUTO_INCREMENT s |}.

(* ================================================================= *)
(** ** The data functions *)

(** Modelled from the spec: the error kinds of the data functions, which the
    repository does not contain. *)
Inductive Error : Type :=
| NotFound
| ConstraintViolation
| DuplicateVote
| ProviderError.

(** Modelled from the spec: how a rejected statement reaches the caller of a
    data function (the functions are missing from the repository).  A
    uniqueness violation on the composite key of [votes] is [DuplicateVote],
    a reference to a row that does not exist is [NotFound], any other
    constraint is [ConstraintViolation]. *)
Definition surface (e : DbError) : Error :=
  match e with
  | NotNullViolation _ _ => ConstraintViolation
  | UniqueConstraintError t _ =>
      if String.eqb t (table_of "vote") then DuplicateVote
      else ConstraintViolation
  | ForeignKeyConstraintError _ _ => NotFound
  end.

(** A completion callback receives the record or the error, and the store as
    the call left it. *)
Definition Callback (A T : Type) : Type := Result Error A -> Store -> T.

(** Modelled from the spec: [createNewUser(username, password, callback)]
    (the README asks for it, the repository does not contain it).  Inserts a
    new User record and invokes the callback with the created record, or with
    the error. *)
Definition createNewUser {T} (now : Z) (username password : string)
    (callback : Callback user.row T) (s : Store) : T :=
  match User_create now {| user.username := Some username;
                           user.password := Some password;
                           user.email := None |} s with
  | Ok (r, s') => callback (Ok r) s'
  | Err e => callback (Err (surface e)) s
  end.

(** Modelled from the spec: [createNewContent(userId, url, title, callback)]
    (missing from the repository).  Looks the user up; if not found, fails
    with [NotFound] and creates no row; if found, creates the Content record
    with its owner in one insert. *)
Definition createNewContent {T} (now : Z) (userId : Z) (url title : string)
    (callback : Callback content.row T) (s : Store) : T :=
  match User_findById userId s with
  | None => callback (Err NotFound) s
  | Some u =>
      match Content_create now {| content.url := Some url;
                                  content.title := Some title;
                                  content.userId := Some (user.id u) |} s with
      | Ok (r, s') => callback (Ok r) s'
      | Err e => callback (Err (surface e)) s
      end
  end.

(** Modelled from the spec: [voteOnContent(contentId, userId, isUpVote,
    callback)] (missing from the repository).  Both records must exist; the
    vote is then attempted as a single insert whose primary key is the pair. *)
Definition voteOnContent {T} (now : Z) (contentId userId : Z) (isUpVote : bool)
    (callback : Callback vote.row T) (s : Store) : T :=
  match User_findById userId s with
  | None => callback (Err NotFound) s
  | Some u =>
      match Content_findById contentId s with
      | None => callback (Err NotFound) s
      | Some c =>
          match Vote_create now {| vote.upVote := Some isUpVote;
                                   vote.userId := user.id u;
                                   vote.contentId := content.id c |} s with
          | Ok (r, s') => callback (Ok r) s'
          | Err e => callback (Err (surface e)) s
          end
      end
  end.

(** Callbacks used to observe a call: the pair of what was passed and the
    store, or the store alone. *)
Definition observe {A} : Callback A (Result Error A * Store) :=
  fun r s => (r, s).

Definition store_after {A} : Callback A Store := fun _ s => s.

(* ================================================================= *)
(** ** Histories: any sequence of statements and calls *)

Inductive Operation : Type :=
| CreateNewUser (now : Z) (username password : string)
| CreateNewContent (now : Z) (userId : Z) (url title : string)
| VoteOnContent (now : Z) (contentId userId : Z) (isUpVote : bool)
| InsertUser (now : Z) (v : user.values)
| InsertContent (now : Z) (v : content.values)
| InsertVote (now : Z) (v : vote.values)
| DeleteUser (uid : Z)
| DeleteContent (cid : Z)
| DeleteVote (uid cid : Z).

(** A rejected statement leaves the store as it was. *)
Definition committed {A} (r : DbResult (A * Store)) (s : Store) : Store :=
  match r with
  | Ok (_, s') => s'
  | Err _ => s
  end.

Definition apply (op : Operation) (s : Store) : Store :=
  match op with
  | CreateNewUser now u p => createNewUser now u p store_after s
  | CreateNewContent now uid url title =>
      createNewContent now uid url title store_after s
  | VoteOnContent now cid uid up => voteOnContent now cid uid up store_after s
  | InsertUser now v => committed (User_create now v s) s
  | InsertContent now v => committed (Content_create now v s) s
  | InsertVote now v => committed (Vote_create now v s) s
  | DeleteUser uid => User_destroy uid s
  | DeleteContent cid => Content_destroy cid s
  | DeleteVote uid cid => Vote_destroy uid cid s
  end.

Definition run (ops : list Operation) (s : Store) : Store :=
  fold_left (fun s' op => apply op s') ops s.

(** Stores that the three data functions alone lead to. *)
Definition data_function (op : Operation) : bool :=
  match op with
  | CreateNewUser _ _ _ | CreateNewContent _ _ _ _ | VoteOnContent _ _ _ _ =>
      true
  | _ => false
  end.

(* ================================================================= *)
(** ** Consistency of a store *)

Fixpoint distinct {A} (eqb : A -> A -> bool) (l : list A) : bool :=
  match l with
  | [] => true
  | x :: t => negb (existsb (eqb x) t) && distinct eqb t
  end.

Definition owner_exists (s : Store) (r : content.row) : bool :=
  match content.owner r with
  | Some u => existsb (Z.eqb u) (user_ids s)
  | None => true
  end.

Definition vote_refs_exist (s : Store) (r : vote.row) : bool :=
  existsb (Z.eqb (vote.userId (vote.data r))) (user_ids s)
  && existsb (Z.eqb (vote.contentId (vote.data r))) (content_ids s).

(** Identifiers were handed out by the counters, no pair votes twice, and
    every foreign key that is set points to a row. *)
Definition consistentb (s : Store) : bool :=
  forallb (fun i => i <? users_AUTO_INCREMENT s) (user_ids s)
  && forallb (fun i => i <? contents_AUTO_INCREMENT s) (content_ids s)
  && distinct pair_eqb (vote_pairs s)
  && forallb (owner_exists s) (contents s)
  && forallb (vote_refs_exist s) (votes s).

Definition consistent (s : Store) : Prop := consistentb s = true.

(** The propositional reading of [consistentb]. *)
Record Consistent (s : Store) : Prop := {
  user_ids_issued : forall i, In i (user_ids s) -> i < users_AUTO_INCREMENT s;
  content_ids_issued :
    forall i, In i (content_ids s) -> i < contents_AUTO_INCREMENT s;
  one_vote_per_pair : NoDup (vote_pairs s);
  owners_exist :
    forall r u, In r (contents s) -> content.owner r = Some u ->
                In u (user_ids s);
  vote_refs :
    forall r, In r (votes s) ->
              In (vote.userId (vote.data r)) (user_ids s)
              /\ In (vote.contentId (vote.data r)) (content_ids s)
}.

(** Number of stored votes of a pair. *)
Definition votes_of_pair (uid cid : Z) (s : Store) : nat :=
  List.length (filter (fun r => pair_eqb (vote.pair r) (uid, cid)) (votes s)).

(* ================================================================= *)
(** ** Concurrent calls of [voteOnContent] *)

(** Modelled from the spec: [voteOnContent] (missing from the repository),
    statement by statement.  A call in flight is at one of its three
    statements, or has called back.  Each statement is one request to the
    database and is atomic; between two statements of a call, statements of
    other calls may run. *)
Inductive VoteCall : Type :=
| AwaitUser
| AwaitContent (u : user.row)
| AwaitInsert (u : user.row) (c : content.row)
| CalledBack (r : Result Error vote.row).

Record VoteArgs : Type := {
  arg_now : Z;
  arg_contentId : Z;
  arg_userId : Z;
  arg_isUpVote : bool
}.

Definition vote_step (a : VoteArgs) (pc : VoteCall) (s : Store)
    : VoteCall * Store :=
  match pc with
  | AwaitUser =>
      match User_findById (arg_userId a) s with
      | None => (CalledBack (Err NotFound), s)
      | Some u => (AwaitContent u, s)
      end
  | AwaitContent u =>
      match Content_findById (arg_contentId a) s with
      | None => (CalledBack (Err NotFound), s)
      | Some c => (AwaitInsert u c, s)
      end
  | AwaitInsert u c =>
      match Vote_create (arg_now a) {| vote.upVote := Some (arg_isUpVote a);
                                       vote.userId := user.id u;
                                       vote.contentId := content.id c |} s with
      | Ok (r, s') => (CalledBack (Ok r), s')
      | Err e => (CalledBack (Err (surface e)), s)
      end
  | CalledBack r => (CalledBack r, s)
  end.

Record Race : Type := {
  first : VoteCall;
  second : VoteCall;
  shared : Store
}.

(** A schedule names, statement by statement, which of the two calls runs
    next ([true]: the first). *)
Definition race_step (a b : VoteArgs) (turn : bool) (r : Race) : Race :=
  if turn
  then let (pc, s) := vote_step a (first r) (shared r) in
       {| first := pc; second := second r; shared := s |}
  else let (pc, s) := vote_step b (second r) (shared r) in
       {| first := first r; second := pc; shared := s |}.

Definition race (a b : VoteArgs) (schedule : list bool) (s : Store) : Race :=
  fold_left (fun r turn => race_step a b turn r) schedule
            {| first := AwaitUser; second := AwaitUser; shared := s |}.

Definition turns (who : bool) (schedule : list bool) : nat :=
  List.length (filter (Bool.eqb who) schedule).

(** A call run on its own: [n] statements in a row. *)
Fixpoint vote_steps (a : VoteArgs) (n : nat) (pc : VoteCall) (s : Store)
    : VoteCall * Store :=
  match n with
  | O => (pc, s)
  | S n' => let (pc', s') := vote_step a pc s in vote_steps a n' pc' s'
  end.

(** The row a call has written, if it has. *)
Definition won (pc : VoteCall) : list vote.row :=
  match pc with
  | CalledBack (Ok r) => [r]
  | _ => []
  end.

(** The row call [a] writes for the pair. *)
Definition cast (a : VoteArgs) (uid cid : Z) : vote.row :=
  new_vote (arg_now a) {| vote.upVote := Some (arg_isUpVote a);
                          vote.userId := uid;
                          vote.contentId := cid |}.

(** Where a call for the pair [(uid, cid)] stands after [n] of its turns,
    when both records exist and only votes of that pair are being written. *)
Definition stands (a : VoteArgs) (uid cid : Z) (n : nat)
    (pc other : VoteCall) : Prop :=
  match n with
  | 0%nat => pc = AwaitUser
  | 1%nat => exists u, pc = AwaitContent u /\ user.id u = uid
  | 2%nat => exists u c, pc = AwaitInsert u c
                         /\ user.id u = uid /\ content.id c = cid
  | _ => pc = CalledBack (Ok (cast a uid cid))
         \/ (pc = CalledBack (Err DuplicateVote) /\ won other <> [])
  end.

(** What stays true of two racing calls for the pair [(uid, cid)], started
    on store [s], once the first has had [n1] turns and the second [n2]. *)
Record race_inv (s : Store) (a b : VoteArgs) (uid cid : Z) (n1 n2 : nat)
    (r : Race) : Prop := {
  inv_users : users (shared r) = users s;
  inv_contents : contents (shared r) = contents s;
  inv_votes : votes (shared r) = votes s ++ won (first r) ++ won (second r);
  inv_one : won (first r) = [] \/ won (second r) = [];
  inv_first : stands a uid cid n1 (first r) (second r);
  inv_second : stands b uid cid n2 (second r) (first r)
}.

(** Every Content record has an owner. *)
Definition all_owned (s : Store) : Prop :=
  forall r, In r (contents s) -> exists u, content.owner r = Some u.

(* ================================================================= *)
(** ** Reading a store and a model *)

(** [content.getVotes()]: "It will return the votes for the Content instance
    it was called on" (README.md). *)
Definition getVotes (cid : Z) (s : Store) : list vote.row :=
  filter (votes_on_content cid) (votes s).

(** The users who voted on a content. *)
Definition voters (cid : Z) (s : Store) : list Z :=
  map (fun r => vote.userId (vote.data r)) (getVotes cid s).



(** No two rows of [users], and no two rows of [contents], share an [id]. *)
Definition unique_ids (s : Store) : Prop :=
  NoDup (user_ids s) /\ NoDup (content_ids s).

(* ================================================================= *)
(** ** Some histories *)

(** alice signs up, posts one link and upvotes it. *)
Definition history_example : list Operation :=
  [ CreateNewUser 100 "alice" "secret";
    CreateNewContent 101 1 "http://x.com" "X";
    VoteOnContent 102 1 1 true ].

Definition store_example : Store := run history_example sync.

(** The two opposite votes of the same pair that race in the examples. *)
Definition upvote_example : VoteArgs :=
  {| arg_now := 102; arg_contentId := 1; arg_userId := 1;
     arg_isUpVote := true |}.

Definition downvote_example : VoteArgs :=
  {| arg_now := 103; arg_contentId := 1; arg_userId := 1;
     arg_isUpVote := false |}.

(** alice and her link, not voted on yet. *)
Definition store_unvoted : Store :=
  run [ CreateNewUser 100 "alice" "secret";
        CreateNewContent 101 1 "http://x.com" "X" ] sync.

(* ================================================================= *)
(** * Properties *)

(** ** Facts about the computed schema *)

Lemma users_table :
  find_model "user" reddit_js
  = Some {| name := "user"; tableName := "users";
            columns := [ id_column;
                         plain_column "username" STRING;
                         plain_column "password" STRING;
                         plain_column "email" STRING;
                         timestamp_column "createdAt";
                         timestamp_column "updatedAt" ] |}.
Proof. reflexivity. Qed.

Lemma contents_table :
  find_model "content" reddit_js
  = Some {| name := "content"; tableName := "contents";
            columns := [ id_column;
                         plain_column "url" STRING;
                         plain_column "title" STRING;
                         timestamp_column "createdAt";
                         timestamp_column "updatedAt";
                         {| field := "userId";
                            attribute := shorthand INTEGER;
                            references :=
                              Some {| model := "user"; key := "id";
                                      onDelete := SET_NULL;
                                      onUpdate := CASCADE |} |} ] |}.
Proof. reflexivity. Qed.

(** The table README.md prints: [upVote], the timestamps, then the two keys
    that make the primary key. *)
Lemma votes_table :
  find_model "vote" reddit_js
  = Some {| name := "vote"; tableName := "votes";
            columns := [ plain_column "upVote" BOOLEAN;
                         timestamp_column "createdAt";
                         timestamp_column "updatedAt";
                         join_key "user";
                         join_key "content" ] |}.
Proof. reflexivity. Qed.

Lemma votes_primary_key : primary_key "vote" = ["userId"; "contentId"].
Proof. reflexivity. Qed.

Lemma contents_userId_on_delete : on_delete "content" "userId" = Some SET_NULL.
Proof. reflexivity. Qed.

(** ** Boolean checks against their meaning *)

Lemma pair_eqb_eq p q : pair_eqb p q = true <-> p = q.
Proof.
  destruct p as [a b], q as [c d]. unfold pair_eqb. simpl.
  rewrite andb_true_iff, !Z.eqb_eq. split.
  - intros [-> ->]. reflexivity.
  - intros H. inversion H. auto.
Qed.

Lemma pair_eqb_refl p : pair_eqb p p = true.
Proof. apply pair_eqb_eq. reflexivity. Qed.

Section Membership.
Context {A : Type} (eqb : A -> A -> bool).
Hypothesis eqb_eq : forall x y, eqb x y = true <-> x = y.

Lemma existsb_In x l : existsb (eqb x) l = true <-> In x l.
Proof.
  rewrite existsb_exists. split.
  - intros [y [Hy He]]. apply eqb_eq in He. subst. exact Hy.
  - intros H. exists x. split; [exact H | apply eqb_eq; reflexivity].
Qed.

Lemma existsb_not_In x l : existsb (eqb x) l = false <-> ~ In x l.
Proof.
  rewrite <- existsb_In. destruct (existsb (eqb x) l); split; intro H;
    congruence || (exfalso; apply H; reflexivity) || reflexivity.
Qed.

Lemma distinct_NoDup l : distinct eqb l = true <-> NoDup l.
Proof.
  induction l as [|x t IH]; simpl.
  - split; [constructor | reflexivity].
  - rewrite andb_true_iff, negb_true_iff, existsb_not_In, IH.
    split.
    + intros [H1 H2]. constructor; assumption.
    + intros H. inversion H. auto.
Qed.
End Membership.

Lemma Z_existsb_In k l : existsb (Z.eqb k) l = true <-> In k l.
Proof. apply existsb_In. intros. apply Z.eqb_eq. Qed.

Lemma Z_existsb_not_In k l : existsb (Z.eqb k) l = false <-> ~ In k l.
Proof. apply existsb_not_In. intros. apply Z.eqb_eq. Qed.

Lemma pair_existsb_In p l : existsb (pair_eqb p) l = true <-> In p l.
Proof. apply existsb_In. intros. apply pair_eqb_eq. Qed.

Lemma pair_existsb_not_In p l : existsb (pair_eqb p) l = false <-> ~ In p l.
Proof. apply existsb_not_In. intros. apply pair_eqb_eq. Qed.

Lemma consistent_iff s : consistent s <-> Consistent s.
Proof.
  unfold consistent, consistentb.
  rewrite !andb_true_iff, !forallb_forall.
  rewrite (distinct_NoDup pair_eqb pair_eqb_eq).
  split.
  - intros [[[[H1 H2] H3] H4] H5]. constructor.
    + intros i Hi. apply Z.ltb_lt. auto.
    + intros i Hi. apply Z.ltb_lt. auto.
    + exact H3.
    + intros r u Hr Hu. specialize (H4 r Hr). unfold owner_exists in H4.
      rewrite Hu in H4. apply Z_existsb_In. exact H4.
    + intros r Hr. specialize (H5 r Hr). unfold vote_refs_exist in H5.
      apply andb_true_iff in H5. rewrite !Z_existsb_In in H5. exact H5.
  - intros [H1 H2 H3 H4 H5]. repeat split.
    + intros i Hi. apply Z.ltb_lt. auto.
    + intros i Hi. apply Z.ltb_lt. auto.
    + exact H3.
    + intros r Hr. unfold owner_exists.
      destruct (content.owner r) as [u|] eqn:Hu; [|reflexivity].
      apply Z_existsb_In. eauto.
    + intros r Hr. unfold vote_refs_exist.
      apply andb_true_iff. rewrite !Z_existsb_In. auto.
Qed.

(** ** The statements, constraint by constraint *)

Lemma not_null_nullable {A} n f (v : option A) :
  nullable n f = true -> not_null n f v = Ok tt.
Proof. intros H. unfold not_null. rewrite H. destruct v; reflexivity. Qed.

Lemma check_unique_none {A} (eqb : A -> A -> bool) n f v stored :
  is_unique n f = false -> check_unique eqb n f v stored = Ok tt.
Proof. intros H. unfold check_unique. rewrite H. destruct v; reflexivity. Qed.

Lemma User_create_eq now v s :
  User_create now v s
  = if existsb (Z.eqb (users_AUTO_INCREMENT s)) (user_ids s)
    then Err (UniqueConstraintError "users" ["id"])
    else Ok (new_user now v s, add_user (new_user now v s) s).
Proof.
  unfold User_create.
  rewrite !not_null_nullable by reflexivity.
  rewrite !check_unique_none by reflexivity.
  unfold check_primary_key. simpl user.id.
  destruct (existsb _ _); reflexivity.
Qed.

Lemma Content_create_eq now v s :
  Content_create now v s
  = if existsb (Z.eqb (contents_AUTO_INCREMENT s)) (content_ids s)
    then Err (UniqueConstraintError "contents" ["id"])
    else match content.userId v with
         | Some u =>
             if existsb (Z.eqb u) (user_ids s)
             then Ok (new_content now v s, add_content (new_content now v s) s)
             else Err (ForeignKeyConstraintError "contents" "userId")
         | None =>
             Ok (new_content now v s, add_content (new_content now v s) s)
         end.
Proof.
  unfold Content_create.
  rewrite !not_null_nullable by reflexivity.
  rewrite !check_unique_none by reflexivity.
  unfold check_primary_key, check_foreign_key. simpl content.id.
  destruct (existsb _ (content_ids s)); [reflexivity|].
  destruct (content.userId v) as [u|]; [|reflexivity].
  change (has_reference "content" "userId") with true.
  destruct (existsb _ (user_ids s)); reflexivity.
Qed.

Lemma Vote_create_eq now v s :
  Vote_create now v s
  = if existsb (pair_eqb (vote.userId v, vote.contentId v)) (vote_pairs s)
    then Err (UniqueConstraintError "votes" ["userId"; "contentId"])
    else if existsb (Z.eqb (vote.userId v)) (user_ids s)
    then if existsb (Z.eqb (vote.contentId v)) (content_ids s)
         then Ok (new_vote now v, add_vote (new_vote now v) s)
         else Err (ForeignKeyConstraintError "votes" "contentId")
    else Err (ForeignKeyConstraintError "votes" "userId").
Proof.
  unfold Vote_create.
  rewrite !not_null_nullable by reflexivity.
  unfold check_primary_key, check_foreign_key.
  change (vote.pair (new_vote now v)) with (vote.userId v, vote.contentId v).
  destruct (existsb _ (vote_pairs s)); [reflexivity|].
  change (has_reference "vote" "userId") with true.
  change (has_reference "vote" "contentId") with true.
  destruct (existsb _ (user_ids s)); [|reflexivity].
  destruct (existsb _ (content_ids s)); reflexivity.
Qed.

(** Looking a row up by its identifier. *)
Lemma User_findById_In i s :
  In i (user_ids s) -> exists u, User_findById i s = Some u /\ user.id u = i.
Proof.
  unfold User_findById, user_ids. intros H. apply in_map_iff in H.
  destruct H as [r [Hr Hin]].
  destruct (find (fun r0 => user.id r0 =? i) (users s)) as [u|] eqn:E.
  - exists u. split; [reflexivity|]. apply find_some in E.
    apply Z.eqb_eq. apply E.
  - exfalso. apply (find_none _ _ E) in Hin. rewrite Hr, Z.eqb_refl in Hin.
    discriminate.
Qed.

Lemma User_findById_not_In i s :
  ~ In i (user_ids s) -> User_findById i s = None.
Proof.
  unfold User_findById, user_ids. intros H.
  destruct (find (fun r0 => user.id r0 =? i) (users s)) as [u|] eqn:E;
    [|reflexivity].
  exfalso. apply H. apply find_some in E. destruct E as [Hin He].
  apply Z.eqb_eq in He. subst i. apply in_map. exact Hin.
Qed.

Lemma Content_findById_In i s :
  In i (content_ids s) ->
  exists c, Content_findById i s = Some c /\ content.id c = i.
Proof.
  unfold Content_findById, content_ids. intros H. apply in_map_iff in H.
  destruct H as [r [Hr Hin]].
  destruct (find (fun r0 => content.id r0 =? i) (contents s)) as [c|] eqn:E.
  - exists c. split; [reflexivity|]. apply find_some in E.
    apply Z.eqb_eq. apply E.
  - exfalso. apply (find_none _ _ E) in Hin. rewrite Hr, Z.eqb_refl in Hin.
    discriminate.
Qed.

Lemma find_app_miss {A} (p : A -> bool) l x :
  find p l = None -> find p (l ++ [x]) = if p x then Some x else None.
Proof.
  induction l as [|y t IH]; simpl; [reflexivity|].
  destruct (p y); [discriminate|]. exact IH.
Qed.

Lemma User_destroy_eq uid s :
  User_destroy uid s
  = {| users := filter (fun r => negb (user.id r =? uid)) (users s);
       contents := map (fun r => if owned_by uid r then clear_owner r else r)
                       (contents s);
       votes := filter (fun r => negb (votes_of_user uid r)) (votes s);
       users_AUTO_INCREMENT := users_AUTO_INCREMENT s;
       contents_AUTO_INCREMENT := contents_AUTO_INCREMENT s |}.
Proof. reflexivity. Qed.

Lemma Content_destroy_eq cid s :
  Content_destroy cid s
  = {| users := users s;
       contents := filter (fun r => negb (content.id r =? cid)) (contents s);
       votes := filter (fun r => negb (votes_on_content cid r)) (votes s);
       users_AUTO_INCREMENT := users_AUTO_INCREMENT s;
       contents_AUTO_INCREMENT := contents_AUTO_INCREMENT s |}.
Proof. reflexivity. Qed.

(** ** Consistency is kept by every statement *)

Lemma NoDup_snoc {A} (l : list A) x : NoDup l -> ~ In x l -> NoDup (l ++ [x]).
Proof.
  induction l as [|y t IH]; simpl; intros Hn Hx.
  - constructor; [intros []|constructor].
  - inversion Hn; subst. constructor.
    + rewrite in_app_iff. simpl. intros [H|[H|[]]]; [contradiction|].
      apply Hx. left. symmetry. exact H.
    + apply IH; [assumption|]. intros H. apply Hx. right. exact H.
Qed.

Lemma In_map_filter {A B} (f : A -> B) p l y :
  In y (map f (filter p l)) -> In y (map f l).
Proof.
  rewrite !in_map_iff. intros [x [Hx Hin]]. apply filter_In in Hin.
  exists x. tauto.
Qed.

Lemma NoDup_map_filter {A B} (f : A -> B) p l :
  NoDup (map f l) -> NoDup (map f (filter p l)).
Proof.
  induction l as [|x t IH]; simpl; intros H; [constructor|].
  inversion H; subst. destruct (p x); simpl; [|auto].
  constructor; [|auto]. intros Hin. apply In_map_filter in Hin. contradiction.
Qed.

Lemma sync_consistent : Consistent sync.
Proof.
  constructor; simpl; try (intros; contradiction). constructor.
Qed.

Lemma add_user_consistent now v s :
  Consistent s -> Consistent (add_user (new_user now v s) s).
Proof.
  intros [H1 H2 H3 H4 H5]. constructor; simpl; auto.
  - unfold user_ids. simpl. intros i. rewrite map_app, in_app_iff. simpl.
    intros [H|[H|[]]]; [apply H1 in H|]; lia.
  - intros r u Hr Hu. unfold user_ids. simpl. rewrite map_app, in_app_iff.
    left. eapply H4; eauto.
  - intros r Hr. destruct (H5 r Hr) as [Ha Hb]. split; [|exact Hb].
    unfold user_ids. simpl. rewrite map_app, in_app_iff. left. exact Ha.
Qed.

Lemma add_content_consistent now v s :
  Consistent s ->
  (forall u, content.userId v = Some u -> In u (user_ids s)) ->
  Consistent (add_content (new_content now v s) s).
Proof.
  intros [H1 H2 H3 H4 H5] Hv. constructor; simpl; auto.
  - unfold content_ids. simpl. intros i. rewrite map_app, in_app_iff. simpl.
    intros [H|[H|[]]]; [apply H2 in H|]; lia.
  - intros r u. rewrite in_app_iff. simpl. intros [Hr|[Hr|[]]] Hu.
    + eapply H4; eauto.
    + subst r. apply Hv. exact Hu.
  - intros r Hr. destruct (H5 r Hr) as [Ha Hb]. split; [exact Ha|].
    unfold content_ids. simpl. rewrite map_app, in_app_iff. left. exact Hb.
Qed.

Lemma add_vote_consistent now v s :
  Consistent s ->
  ~ In (vote.userId v, vote.contentId v) (vote_pairs s) ->
  In (vote.userId v) (user_ids s) ->
  In (vote.contentId v) (content_ids s) ->
  Consistent (add_vote (new_vote now v) s).
Proof.
  intros [H1 H2 H3 H4 H5] Hp Hu Hc. constructor; simpl; auto.
  - unfold vote_pairs. simpl. rewrite map_app. simpl.
    apply NoDup_snoc; assumption.
  - intros r. rewrite in_app_iff. simpl. intros [Hr|[Hr|[]]].
    + apply H5. exact Hr.
    + subst r. simpl. auto.
Qed.

Lemma User_create_consistent now v s :
  Consistent s -> Consistent (committed (User_create now v s) s).
Proof.
  intros H. rewrite User_create_eq.
  destruct (existsb _ _); simpl; [exact H|].
  apply add_user_consistent. exact H.
Qed.

Lemma Content_create_consistent now v s :
  Consistent s -> Consistent (committed (Content_create now v s) s).
Proof.
  intros H. rewrite Content_create_eq.
  destruct (existsb _ (content_ids s)); simpl; [exact H|].
  destruct (content.userId v) as [u|] eqn:Hu.
  - destruct (existsb (Z.eqb u) (user_ids s)) eqn:E; simpl; [|exact H].
    apply add_content_consistent; [exact H|].
    intros u' Hu'. rewrite Hu in Hu'. inversion Hu'; subst.
    apply Z_existsb_In. exact E.
  - simpl. apply add_content_consistent; [exact H|].
    intros u' Hu'. rewrite Hu in Hu'. discriminate.
Qed.

Lemma Vote_create_consistent now v s :
  Consistent s -> Consistent (committed (Vote_create now v s) s).
Proof.
  intros H. rewrite Vote_create_eq.
  destruct (existsb _ (vote_pairs s)) eqn:Ep; simpl; [exact H|].
  destruct (existsb _ (user_ids s)) eqn:Eu; simpl; [|exact H].
  destruct (existsb _ (content_ids s)) eqn:Ec; simpl; [|exact H].
  apply add_vote_consistent; [exact H| | |].
  - apply pair_existsb_not_In. exact Ep.
  - apply Z_existsb_In. exact Eu.
  - apply Z_existsb_In. exact Ec.
Qed.

Lemma Vote_destroy_consistent uid cid s :
  Consistent s -> Consistent (Vote_destroy uid cid s).
Proof.
  intros [H1 H2 H3 H4 H5]. constructor; simpl; auto.
  - apply NoDup_map_filter. exact H3.
  - intros r Hr. apply filter_In in Hr. apply H5. apply Hr.
Qed.

Lemma Content_destroy_consistent cid s :
  Consistent s -> Consistent (Content_destroy cid s).
Proof.
  intros [H1 H2 H3 H4 H5]. rewrite Content_destroy_eq.
  constructor; simpl; auto.
  - intros i Hi. apply H2. eapply In_map_filter. exact Hi.
  - apply NoDup_map_filter. exact H3.
  - intros r u Hr Hu. apply filter_In in Hr. eapply H4; [apply Hr|exact Hu].
  - intros r Hr. apply filter_In in Hr. destruct Hr as [Hr Hk].
    destruct (H5 r Hr) as [Ha Hb]. split; [exact Ha|].
    unfold content_ids in *. simpl. apply in_map_iff in Hb.
    destruct Hb as [c [Hc Hin]]. apply in_map_iff. exists c.
    split; [exact Hc|]. apply filter_In. split; [exact Hin|].
    unfold votes_on_content in Hk. rewrite Hc. exact Hk.
Qed.

Lemma map_id_clear_owner uid l :
  map content.id (map (fun r => if owned_by uid r then clear_owner r else r) l)
  = map content.id l.
Proof.
  rewrite map_map. apply map_ext. intros r.
  destruct (owned_by uid r); reflexivity.
Qed.

Lemma User_destroy_consistent uid s :
  Consistent s -> Consistent (User_destroy uid s).
Proof.
  intros [H1 H2 H3 H4 H5]. rewrite User_destroy_eq.
  constructor; simpl; auto.
  - intros i Hi. apply H1. eapply In_map_filter. exact Hi.
  - unfold content_ids. simpl. rewrite map_id_clear_owner. exact H2.
  - apply NoDup_map_filter. exact H3.
  - intros r u Hr Hu. apply in_map_iff in Hr. destruct Hr as [r0 [Hr0 Hin]].
    destruct (owned_by uid r0) eqn:Eo; subst r; [discriminate|].
    pose proof (H4 r0 u Hin Hu) as Hx.
    unfold user_ids in *. simpl. apply in_map_iff in Hx.
    destruct Hx as [x [Hx Hxin]]. apply in_map_iff. exists x.
    split; [exact Hx|]. apply filter_In. split; [exact Hxin|].
    unfold owned_by, holds in Eo. rewrite Hu in Eo. rewrite Hx.
    rewrite Z.eqb_sym. rewrite Eo. reflexivity.
  - intros r Hr. apply filter_In in Hr. destruct Hr as [Hr Hk].
    destruct (H5 r Hr) as [Ha Hb]. split.
    + unfold user_ids in *. simpl. apply in_map_iff in Ha.
      destruct Ha as [x [Hx Hxin]]. apply in_map_iff. exists x.
      split; [exact Hx|]. apply filter_In. split; [exact Hxin|].
      unfold votes_of_user in Hk. rewrite Hx. exact Hk.
    + unfold content_ids. simpl. rewrite map_id_clear_owner. exact Hb.
Qed.

(** The data functions commit exactly what their insert commits. *)
Lemma createNewUser_store now u p s :
  createNewUser now u p store_after s
  = committed (User_create now {| user.username := Some u;
                                  user.password := Some p;
                                  user.email := None |} s) s.
Proof.
  unfold createNewUser, store_after, committed.
  destruct (User_create _ _ _) as [[r s']|e]; reflexivity.
Qed.

Lemma createNewContent_store now uid url title s :
  createNewContent now uid url title store_after s = s
  \/ exists u, User_findById uid s = Some u /\
       createNewContent now uid url title store_after s
       = committed (Content_create now {| content.url := Some url;
                                          content.title := Some title;
                                          content.userId := Some (user.id u) |}
                                   s) s.
Proof.
  unfold createNewContent, store_after, committed.
  destruct (User_findById uid s) as [u|]; [|left; reflexivity].
  right. exists u. split; [reflexivity|].
  destruct (Content_create _ _ _) as [[r s']|e]; reflexivity.
Qed.

Lemma voteOnContent_store now cid uid up s :
  voteOnContent now cid uid up store_after s = s
  \/ exists u c, User_findById uid s = Some u /\
       Content_findById cid s = Some c /\
       voteOnContent now cid uid up store_after s
       = committed (Vote_create now {| vote.upVote := Some up;
                                       vote.userId := user.id u;
                                       vote.contentId := content.id c |} s) s.
Proof.
  unfold voteOnContent, store_after, committed.
  destruct (User_findById uid s) as [u|]; [|left; reflexivity].
  destruct (Content_findById cid s) as [c|]; [|left; reflexivity].
  right. exists u, c. split; [reflexivity|]. split; [reflexivity|].
  destruct (Vote_create _ _ _) as [[r s']|e]; reflexivity.
Qed.

Lemma apply_consistent op s : Consistent s -> Consistent (apply op s).
Proof.
  intros H. destruct op; simpl.
  - rewrite createNewUser_store. apply User_create_consistent. exact H.
  - destruct (createNewContent_store now userId url title s) as [E|[u [_ E]]];
      rewrite E; [exact H|]. apply Content_create_consistent. exact H.
  - destruct (voteOnContent_store now contentId userId isUpVote s)
      as [E|[u [c [_ [_ E]]]]]; rewrite E; [exact H|].
    apply Vote_create_consistent. exact H.
  - apply User_create_consistent. exact H.
  - apply Content_create_consistent. exact H.
  - apply Vote_create_consistent. exact H.
  - apply User_destroy_consistent. exact H.
  - apply Content_destroy_consistent. exact H.
  - apply Vote_destroy_consistent. exact H.
Qed.

Lemma run_consistent ops : forall s, Consistent s -> Consistent (run ops s).
Proof.
  unfold run. induction ops as [|op ops IH]; simpl; intros s H; [exact H|].
  apply IH. apply apply_consistent. exact H.
Qed.

Lemma history_consistent ops : Consistent (run ops sync).
Proof. apply run_consistent. apply sync_consistent. Qed.

(** ** Votes of a pair *)

Lemma filter_pair_nil (l : list vote.row) p :
  ~ In p (map vote.pair l) ->
  filter (fun r => pair_eqb (vote.pair r) p) l = [].
Proof.
  induction l as [|x t IH]; simpl; intros H; [reflexivity|].
  destruct (pair_eqb (vote.pair x) p) eqn:E.
  - exfalso. apply H. left. apply pair_eqb_eq. exact E.
  - apply IH. intros Hin. apply H. right. exact Hin.
Qed.

Lemma votes_of_pair_le_one uid cid s :
  NoDup (vote_pairs s) -> (votes_of_pair uid cid s <= 1)%nat.
Proof.
  unfold votes_of_pair, vote_pairs.
  induction (votes s) as [|x t IH]; simpl; intros H; [lia|].
  inversion H; subst.
  destruct (pair_eqb (vote.pair x) (uid, cid)) eqn:E; [|auto].
  apply pair_eqb_eq in E. rewrite <- E.
  rewrite filter_pair_nil by assumption. simpl. lia.
Qed.

Lemma votes_of_pair_In uid cid s :
  (1 <= votes_of_pair uid cid s)%nat -> In (uid, cid) (vote_pairs s).
Proof.
  unfold votes_of_pair, vote_pairs. intros H.
  destruct (filter _ (votes s)) as [|x t] eqn:E; [simpl in H; lia|].
  assert (Hx : In x (filter (fun r => pair_eqb (vote.pair r) (uid, cid))
                             (votes s))) by (rewrite E; left; reflexivity).
  apply filter_In in Hx. destruct Hx as [Hin He].
  apply pair_eqb_eq in He. rewrite <- He. apply in_map. exact Hin.
Qed.

Lemma Vote_find_None uid cid s :
  Vote_find uid cid s = None <-> ~ In (uid, cid) (vote_pairs s).
Proof.
  unfold Vote_find, vote_pairs. split.
  - intros E Hin. apply in_map_iff in Hin. destruct Hin as [r [Hr Hin]].
    apply (find_none _ _ E) in Hin. rewrite Hr, pair_eqb_refl in Hin.
    discriminate.
  - intros H. destruct (find _ (votes s)) as [r|] eqn:E; [|reflexivity].
    exfalso. apply H. apply find_some in E. destruct E as [Hin He].
    apply pair_eqb_eq in He. rewrite <- He. apply in_map. exact Hin.
Qed.

Lemma surface_DuplicateVote_only e :
  surface e = DuplicateVote ->
  exists fields, e = UniqueConstraintError "votes" fields.
Proof.
  destruct e as [t c|t fields|t c]; simpl; try discriminate.
  destruct (String.eqb t (table_of "vote")) eqn:E; [|discriminate].
  intros _. apply String.eqb_eq in E. subst t. exists fields. reflexivity.
Qed.

(** What [voteOnContent] does when both records exist. *)
Lemma voteOnContent_eq {T} now cid uid up (k : Callback vote.row T) s :
  In uid (user_ids s) -> In cid (content_ids s) ->
  voteOnContent now cid uid up k s
  = if existsb (pair_eqb (uid, cid)) (vote_pairs s)
    then k (Err DuplicateVote) s
    else let r := new_vote now {| vote.upVote := Some up;
                                  vote.userId := uid;
                                  vote.contentId := cid |} in
         k (Ok r) (add_vote r s).
Proof.
  intros Hu Hc.
  destruct (User_findById_In _ _ Hu) as [u [Eu Iu]].
  destruct (Content_findById_In _ _ Hc) as [c [Ec Ic]].
  unfold voteOnContent. rewrite Eu, Ec, Vote_create_eq, Iu, Ic. simpl.
  destruct (existsb _ (vote_pairs s)); [reflexivity|].
  apply Z_existsb_In in Hu, Hc. rewrite Hu, Hc. reflexivity.
Qed.

(* ================================================================= *)
(** * The claims *)

(** C1.  After any sequence of operations the store holds at most one vote
    per (userId, contentId) pair, and an insert of a second vote for a pair
    that has one is rejected by the [votes] table itself: the statement fails
    on the uniqueness of the primary key [(userId, contentId)], whatever the
    caller checked before. *)
Theorem C1_one_vote_per_pair :
  forall (ops : list Operation) (uid cid : Z),
    (votes_of_pair uid cid (run ops sync) <= 1)%nat
    /\ forall (now : Z) (up : option bool),
         votes_of_pair uid cid (run ops sync) = 1%nat ->
         Vote_create now {| vote.upVote := up;
                            vote.userId := uid;
                            vote.contentId := cid |} (run ops sync)
         = Err (UniqueConstraintError "votes" (primary_key "vote")).
Proof.
  intros ops uid cid. split.
  - apply votes_of_pair_le_one. apply (history_consistent ops).
  - intros now up H. rewrite Vote_create_eq. simpl.
    assert (Hin : In (uid, cid) (vote_pairs (run ops sync)))
      by (apply votes_of_pair_In; lia).
    apply pair_existsb_In in Hin. rewrite Hin. reflexivity.
Qed.

Lemma C1_witness :
  Vote_create 103 {| vote.upVote := Some false;
                     vote.userId := 1;
                     vote.contentId := 1 |} (run history_example sync)
  = Err (UniqueConstraintError "votes" ["userId"; "contentId"]).
Proof.
  apply (C1_one_vote_per_pair history_example 1 1). reflexivity.
Defined.

(** C2.  For an existing user and an existing content,
    [voteOnContent(contentId, userId, true)] followed by
    [voteOnContent(contentId, userId, false)]: the second call calls back
    with [DuplicateVote], an error kind of its own, and leaves the store as
    the first call left it; the vote the first call wrote is still the stored
    vote of the pair, with direction [true]. *)
Theorem C2_second_vote_is_duplicate :
  forall (s : Store) (now1 now2 contentId userId : Z),
    In userId (user_ids s) ->
    In contentId (content_ids s) ->
    let s1 := voteOnContent now1 contentId userId true store_after s in
    let s2 := voteOnContent now2 contentId userId false store_after s1 in
    (forall T (callback : Callback vote.row T),
        voteOnContent now2 contentId userId false callback s1
        = callback (Err DuplicateVote) s1)
    /\ s2 = s1
    /\ (forall e, surface e = DuplicateVote ->
                   exists fields, e = UniqueConstraintError "votes" fields)
    /\ (Vote_find userId contentId s = None ->
        exists r,
          voteOnContent now1 contentId userId true observe s = (Ok r, s1)
          /\ Vote_find userId contentId s2 = Some r
          /\ vote.upVote (vote.data r) = Some true).
Proof.
  intros s now1 now2 cid uid Hu Hc s1 s2.
  assert (Hs1 : s1 = if existsb (pair_eqb (uid, cid)) (vote_pairs s) then s
                     else add_vote (new_vote now1
                                      {| vote.upVote := Some true;
                                         vote.userId := uid;
                                         vote.contentId := cid |}) s).
  { unfold s1. rewrite voteOnContent_eq by assumption.
    destruct (existsb _ _); reflexivity. }
  assert (Hu1 : In uid (user_ids s1)).
  { rewrite Hs1. destruct (existsb _ _); exact Hu. }
  assert (Hc1 : In cid (content_ids s1)).
  { rewrite Hs1. destruct (existsb _ _); exact Hc. }
  assert (Hp1 : existsb (pair_eqb (uid, cid)) (vote_pairs s1) = true).
  { rewrite Hs1. destruct (existsb _ (vote_pairs s)) eqn:E; [exact E|].
    apply pair_existsb_In. unfold vote_pairs. simpl.
    rewrite map_app, in_app_iff. right. left. reflexivity. }
  assert (Hdup : forall T (callback : Callback vote.row T),
             voteOnContent now2 cid uid false callback s1
             = callback (Err DuplicateVote) s1).
  { intros T k. rewrite voteOnContent_eq by assumption. rewrite Hp1.
    reflexivity. }
  assert (Hs2 : s2 = s1) by (unfold s2; rewrite Hdup; reflexivity).
  split; [exact Hdup|]. split; [exact Hs2|].
  split; [exact surface_DuplicateVote_only|].
  intros Hnone.
  pose proof (proj1 (Vote_find_None _ _ _) Hnone) as Hnot.
  apply pair_existsb_not_In in Hnot.
  exists (new_vote now1 {| vote.upVote := Some true; vote.userId := uid;
                           vote.contentId := cid |}).
  split; [|split; [|reflexivity]].
  - rewrite voteOnContent_eq by assumption. rewrite Hs1, Hnot. reflexivity.
  - rewrite Hs2, Hs1, Hnot. unfold Vote_find. simpl.
    rewrite find_app_miss by exact Hnone.
    change (vote.pair _) with (uid, cid). rewrite pair_eqb_refl. reflexivity.
Qed.

Lemma C2_witness :
  voteOnContent 103 1 1 false observe store_example
  = (Err DuplicateVote, store_example)
  /\ exists r, Vote_find 1 1 store_example = Some r
               /\ vote.upVote (vote.data r) = Some true.
Proof.
  assert (Hu : In 1 (user_ids store_unvoted)) by (simpl; left; reflexivity).
  assert (Hc : In 1 (content_ids store_unvoted)) by (simpl; left; reflexivity).
  destruct (C2_second_vote_is_duplicate store_unvoted 102 103 1 1 Hu Hc)
    as [Hdup [Hs2 [_ Hfirst]]].
  split.
  - exact (Hdup _ observe).
  - destruct (Hfirst eq_refl) as [r [_ [Hfind Hup]]].
    exists r. split; [|exact Hup].
    rewrite Hs2 in Hfind. exact Hfind.
Defined.

(** C3.  For a [userId] that references no existing User, whatever the url
    and the title, [createNewContent] calls back with [NotFound] and the
    store is the one it was given: no Content row is inserted. *)
Theorem C3_createNewContent_unknown_user :
  forall (s : Store) (now userId : Z) (url title : string),
    ~ In userId (user_ids s) ->
    (forall T (callback : Callback content.row T),
        createNewContent now userId url title callback s
        = callback (Err NotFound) s)
    /\ createNewContent now userId url title store_after s = s.
Proof.
  intros s now uid url title H.
  assert (E : User_findById uid s = None) by (apply User_findById_not_In, H).
  unfold createNewContent. rewrite E. split; reflexivity.
Qed.

Lemma C3_witness :
  createNewContent 104 7 "http://y.com" "Y" observe store_example
  = (Err NotFound, store_example).
Proof.
  apply (C3_createNewContent_unknown_user store_example 104 7).
  simpl. intros [H|[]]. discriminate.
Defined.

(** C4, as the schema has it.  [username], [password] and [email] are
    declared by their type alone, so the three columns are nullable: on a
    consistent store a User record is persisted whatever fields are missing,
    the missing ones being stored as NULL; no constraint is violated. *)
Theorem C4_user_fields_optional :
  forall (s : Store) (now : Z) (v : user.values),
    consistent s ->
    User_create now v s = Ok (new_user now v s, add_user (new_user now v s) s)
    /\ user.data (new_user now v s) = v
    /\ nullable "user" "username" = true
    /\ nullable "user" "password" = true
    /\ nullable "user" "email" = true.
Proof.
  intros s now v H. apply consistent_iff in H.
  split; [|repeat split].
  rewrite User_create_eq.
  assert (E : existsb (Z.eqb (users_AUTO_INCREMENT s)) (user_ids s) = false).
  { apply Z_existsb_not_In. intros Hin.
    apply (user_ids_issued s H) in Hin. lia. }
  rewrite E. reflexivity.
Qed.

Lemma C4_witness :
  User_create 105 {| user.username := None;
                     user.password := None;
                     user.email := None |} store_example
  = Ok ({| user.id := 2;
           user.data := {| user.username := None;
                           user.password := None;
                           user.email := None |};
           user.createdAt := 105; user.updatedAt := 105 |},
        add_user (new_user 105 {| user.username := None;
                                  user.password := None;
                                  user.email := None |} store_example)
                 store_example).
Proof.
  apply (C4_user_fields_optional store_example 105). reflexivity.
Defined.

(** C4 as stated fails: on the freshly created tables, a User without a
    username, one without a password and one without an email are each
    persisted, instead of failing with a constraint violation. *)
Lemma C4_counterexample :
  (exists r s', User_create 100 {| user.username := None;
                                   user.password := Some "secret";
                                   user.email := Some "alice@x.com" |} sync
                = Ok (r, s') /\ users s' = [r])
  /\ (exists r s', User_create 100 {| user.username := Some "alice";
                                      user.password := None;
                                      user.email := Some "alice@x.com" |} sync
                   = Ok (r, s') /\ users s' = [r])
  /\ (exists r s', User_create 100 {| user.username := Some "alice";
                                      user.password := Some "secret";
                                      user.email := None |} sync
                   = Ok (r, s') /\ users s' = [r]).
Proof.
  repeat split; eexists; eexists; split; reflexivity.
Qed.

(** C5, as the schema has it.  Deleting a User deletes every Vote that
    references the user and keeps every Content record, clearing the owner
    reference of those the user owned ([hasMany] without options: ON DELETE
    SET NULL); deleting a Content record deletes every Vote that references
    it; after either deletion, on a consistent store, every remaining Content
    record's owner reference is null or points to an existing User. *)
Theorem C5_delete_actions :
  forall (s : Store) (uid cid : Z),
    consistent s ->
    (~ In uid (user_ids (User_destroy uid s))
     /\ (forall r, In r (votes (User_destroy uid s)) ->
                   vote.userId (vote.data r) <> uid)
     /\ contents (User_destroy uid s)
        = map (fun r => if owned_by uid r then clear_owner r else r)
              (contents s)
     /\ (forall r, In r (contents (User_destroy uid s)) ->
                   content.owner r <> Some uid)
     /\ (forall r u, In r (contents (User_destroy uid s)) ->
                     content.owner r = Some u ->
                     In u (user_ids (User_destroy uid s))))
    /\ (~ In cid (content_ids (Content_destroy cid s))
        /\ (forall r, In r (votes (Content_destroy cid s)) ->
                      vote.contentId (vote.data r) <> cid)
        /\ (forall r u, In r (contents (Content_destroy cid s)) ->
                        content.owner r = Some u ->
                        In u (user_ids (Content_destroy cid s)))).
Proof.
  intros s uid cid H. apply consistent_iff in H.
  pose proof (User_destroy_consistent uid s H) as HU.
  pose proof (Content_destroy_consistent cid s H) as HC.
  split.
  - split; [|split; [|split; [|split]]].
    + rewrite User_destroy_eq. unfold user_ids. simpl. intros Hin.
      apply in_map_iff in Hin. destruct Hin as [x [Hx Hin]].
      apply filter_In in Hin. destruct Hin as [_ Hk].
      rewrite Hx, Z.eqb_refl in Hk. discriminate.
    + rewrite User_destroy_eq. simpl. intros r Hr. apply filter_In in Hr.
      destruct Hr as [_ Hk]. unfold votes_of_user in Hk.
      intros E. rewrite E, Z.eqb_refl in Hk. discriminate.
    + rewrite User_destroy_eq. reflexivity.
    + rewrite User_destroy_eq. simpl. intros r Hr.
      apply in_map_iff in Hr. destruct Hr as [r0 [Hr0 _]].
      destruct (owned_by uid r0) eqn:Eo; subst r; [discriminate|].
      intros E. unfold owned_by, holds in Eo. rewrite E, Z.eqb_refl in Eo.
      discriminate.
    + intros r u. apply (owners_exist _ HU).
  - split; [|split].
    + rewrite Content_destroy_eq. unfold content_ids. simpl. intros Hin.
      apply in_map_iff in Hin. destruct Hin as [x [Hx Hin]].
      apply filter_In in Hin. destruct Hin as [_ Hk].
      rewrite Hx, Z.eqb_refl in Hk. discriminate.
    + rewrite Content_destroy_eq. simpl. intros r Hr. apply filter_In in Hr.
      destruct Hr as [_ Hk]. unfold votes_on_content in Hk.
      intros E. rewrite E, Z.eqb_refl in Hk. discriminate.
    + intros r u. apply (owners_exist _ HC).
Qed.

Lemma C5_witness :
  votes (User_destroy 1 store_example) = []
  /\ map content.owner (contents (User_destroy 1 store_example)) = [None]
  /\ votes (Content_destroy 1 store_example) = [].
Proof.
  assert (H : consistent store_example) by reflexivity.
  pose proof (C5_delete_actions store_example 1 1 H) as [[_ [_ [Hc _]]] _].
  split; [reflexivity|]. split; [|reflexivity].
  rewrite Hc. reflexivity.
Defined.

(** C5 as stated fails: alice owns content 1; once alice is deleted, content
    1 is still stored (only its owner reference is gone). *)
Lemma C5_counterexample :
  (exists r, In r (contents store_example)
             /\ content.id r = 1 /\ content.owner r = Some 1)
  /\ (exists r, In r (contents (User_destroy 1 store_example))
                /\ content.id r = 1 /\ content.owner r = None).
Proof.
  split; eexists; (split; [left; reflexivity|split; reflexivity]).
Qed.

(** ** Stores built by the data functions alone *)

Lemma apply_data_function_owned op s :
  data_function op = true -> all_owned s -> all_owned (apply op s).
Proof.
  intros Hop H. destruct op; try discriminate; simpl.
  - rewrite createNewUser_store, User_create_eq.
    destruct (existsb _ _); exact H.
  - destruct (createNewContent_store now userId url title s) as [E|[u [_ E]]];
      rewrite E; [exact H|]. rewrite Content_create_eq.
    destruct (existsb _ (content_ids s)); simpl; [exact H|].
    destruct (existsb _ (user_ids s)); simpl; [|exact H].
    intros r. simpl. rewrite in_app_iff. simpl. intros [Hr|[Hr|[]]].
    + apply H. exact Hr.
    + subst r. exists (user.id u). reflexivity.
  - destruct (voteOnContent_store now contentId userId isUpVote s)
      as [E|[u [c [_ [_ E]]]]]; rewrite E; [exact H|].
    rewrite Vote_create_eq.
    destruct (existsb _ (vote_pairs s)); simpl; [exact H|].
    destruct (existsb _ (user_ids s)); simpl; [|exact H].
    destruct (existsb _ (content_ids s)); simpl; exact H.
Qed.

Lemma run_data_functions_owned ops :
  forall s, forallb data_function ops = true ->
            all_owned s -> all_owned (run ops s).
Proof.
  unfold run. induction ops as [|op ops IH]; simpl; intros s Hops H;
    [exact H|].
  apply andb_true_iff in Hops. destruct Hops as [Hop Hops].
  apply IH; [exact Hops|]. apply apply_data_function_owned; assumption.
Qed.

(** C6, as the schema has it.  A Content record has at most one owner, the
    nullable reference [userId] that [hasMany] adds.  For an existing userId,
    [createNewContent] inserts, in a single statement, one Content record
    whose owner reference is that userId, and calls back with it; every
    Content record of a store built by the data functions alone has an owner,
    which exists. *)
Theorem C6_createNewContent_owner :
  forall (s : Store) (now userId : Z) (url title : string),
    consistent s ->
    In userId (user_ids s) ->
    let r := new_content now {| content.url := Some url;
                                content.title := Some title;
                                content.userId := Some userId |} s in
    (forall T (callback : Callback content.row T),
        createNewContent now userId url title callback s
        = callback (Ok r) (add_content r s))
    /\ content.owner r = Some userId
    /\ contents (add_content r s) = contents s ++ [r]
    /\ Content_findById (content.id r) (add_content r s) = Some r
    /\ (forall ops c,
           forallb data_function ops = true ->
           In c (contents (run ops sync)) ->
           exists u, content.owner c = Some u
                     /\ In u (user_ids (run ops sync))).
Proof.
  intros s now uid url title H Hu r. apply consistent_iff in H.
  assert (Efresh : existsb (Z.eqb (contents_AUTO_INCREMENT s)) (content_ids s)
                   = false).
  { apply Z_existsb_not_In. intros Hin.
    apply (content_ids_issued s H) in Hin. lia. }
  split; [|split; [reflexivity|split; [reflexivity|split]]].
  - intros T k. destruct (User_findById_In _ _ Hu) as [u [Eu Iu]].
    unfold createNewContent. rewrite Eu, Content_create_eq, Iu, Efresh.
    simpl. apply Z_existsb_In in Hu. rewrite Hu. reflexivity.
  - unfold Content_findById. simpl. rewrite find_app_miss.
    + simpl. rewrite Z.eqb_refl. reflexivity.
    + destruct (find _ (contents s)) as [c|] eqn:E; [|reflexivity].
      exfalso. apply find_some in E. destruct E as [Hin He].
      apply Z.eqb_eq in He.
      assert (Hc : In (content.id c) (content_ids s)) by (apply in_map, Hin).
      apply (content_ids_issued s H) in Hc. lia.
  - intros ops c Hops Hc.
    assert (Ho : all_owned (run ops sync)).
    { apply run_data_functions_owned; [exact Hops|]. intros x []. }
    destruct (Ho c Hc) as [u Eu]. exists u. split; [exact Eu|].
    apply (owners_exist _ (history_consistent ops) c u Hc Eu).
Qed.

Lemma C6_witness :
  createNewContent 104 1 "http://y.com" "Y" observe store_example
  = (Ok {| content.id := 2;
           content.data := {| content.url := Some "http://y.com";
                              content.title := Some "Y";
                              content.userId := Some 1 |};
           content.createdAt := 104; content.updatedAt := 104 |},
     add_content (new_content 104 {| content.url := Some "http://y.com";
                                     content.title := Some "Y";
                                     content.userId := Some 1 |}
                              store_example) store_example).
Proof.
  assert (H : consistent store_example) by reflexivity.
  assert (Hu : In 1 (user_ids store_example)) by (simpl; left; reflexivity).
  exact (proj1 (C6_createNewContent_owner store_example 104 1
                  "http://y.com" "Y" H Hu) _ observe).
Defined.

(** C6 as stated fails: the [contents] table accepts a Content record without
    an owner, and a Content record outlives its owner with the reference
    cleared, so a Content row without an owner can exist. *)
Lemma C6_counterexample :
  (exists r s', Content_create 101 {| content.url := Some "http://x.com";
                                      content.title := Some "X";
                                      content.userId := None |} sync
                = Ok (r, s')
                /\ In r (contents s') /\ content.owner r = None)
  /\ (exists r, In r (contents (run (history_example ++ [DeleteUser 1]) sync))
                /\ content.owner r = None).
Proof.
  split.
  - eexists; eexists. split; [reflexivity|].
    split; [left; reflexivity|reflexivity].
  - eexists. split; [left; reflexivity|reflexivity].
Qed.

(** C7.  On a consistent store, for every username and password,
    [createNewUser] inserts exactly one User row and calls back with the
    created record; the record carries the identifier generated by the table
    (one no stored user has) and both timestamps, and looking that identifier
    up afterwards returns the same record. *)
Theorem C7_createNewUser_roundtrip :
  forall (s : Store) (now : Z) (username password : string),
    consistent s ->
    let r := new_user now {| user.username := Some username;
                             user.password := Some password;
                             user.email := None |} s in
    (forall T (callback : Callback user.row T),
        createNewUser now username password callback s
        = callback (Ok r) (add_user r s))
    /\ users (add_user r s) = users s ++ [r]
    /\ contents (add_user r s) = contents s
    /\ votes (add_user r s) = votes s
    /\ user.id r = users_AUTO_INCREMENT s
    /\ ~ In (user.id r) (user_ids s)
    /\ user.createdAt r = now
    /\ user.updatedAt r = now
    /\ User_findById (user.id r) (add_user r s) = Some r.
Proof.
  intros s now u p H r. apply consistent_iff in H.
  assert (Hfresh : ~ In (users_AUTO_INCREMENT s) (user_ids s)).
  { intros Hin. apply (user_ids_issued s H) in Hin. lia. }
  split; [|repeat split; try exact Hfresh].
  - intros T k. unfold createNewUser. rewrite User_create_eq.
    apply Z_existsb_not_In in Hfresh. rewrite Hfresh. reflexivity.
  - unfold User_findById. simpl. rewrite find_app_miss.
    + simpl. rewrite Z.eqb_refl. reflexivity.
    + apply (User_findById_not_In _ s). exact Hfresh.
Qed.

Lemma C7_witness :
  createNewUser 100 "alice" "secret" observe sync
  = (Ok {| user.id := 1;
           user.data := {| user.username := Some "alice";
                           user.password := Some "secret";
                           user.email := None |};
           user.createdAt := 100; user.updatedAt := 100 |},
     add_user (new_user 100 {| user.username := Some "alice";
                               user.password := Some "secret";
                               user.email := None |} sync) sync).
Proof.
  assert (H : consistent sync) by reflexivity.
  exact (proj1 (C7_createNewUser_roundtrip sync 100 "alice" "secret" H)
               _ observe).
Defined.

(** C9.  No attribute of User is declared unique: on a consistent store two
    User creations carrying the same username, with any passwords and
    emails, both succeed and store two rows with distinct identifiers. *)
Theorem C9_same_username_twice :
  forall (s : Store) (now1 now2 : Z) (v1 v2 : user.values),
    consistent s ->
    user.username v1 = user.username v2 ->
    exists r1 s1 r2 s2,
      User_create now1 v1 s = Ok (r1, s1)
      /\ User_create now2 v2 s1 = Ok (r2, s2)
      /\ user.id r1 <> user.id r2
      /\ user.data r1 = v1 /\ user.data r2 = v2
      /\ users s2 = users s ++ [r1; r2]
      /\ is_unique "user" "username" = false
      /\ is_unique "user" "password" = false
      /\ is_unique "user" "email" = false.
Proof.
  intros s now1 now2 v1 v2 H _. apply consistent_iff in H.
  pose proof (add_user_consistent now1 v1 s H) as H1.
  exists (new_user now1 v1 s), (add_user (new_user now1 v1 s) s).
  exists (new_user now2 v2 (add_user (new_user now1 v1 s) s)).
  eexists.
  split; [|split; [|split; [|repeat split]]].
  - rewrite User_create_eq.
    assert (E : existsb (Z.eqb (users_AUTO_INCREMENT s)) (user_ids s) = false).
    { apply Z_existsb_not_In. intros Hin.
      apply (user_ids_issued s H) in Hin. lia. }
    rewrite E. reflexivity.
  - rewrite User_create_eq.
    match goal with
    | |- (if existsb ?f ?l then _ else _) = _ =>
        assert (E : existsb f l = false)
    end.
    { apply Z_existsb_not_In. intros Hin.
      apply (user_ids_issued _ H1) in Hin. lia. }
    rewrite E. reflexivity.
  - simpl. lia.
  - simpl. rewrite <- app_assoc. reflexivity.
Qed.

Lemma C9_witness :
  exists r1 s1 r2 s2,
    User_create 100 {| user.username := Some "alice";
                       user.password := Some "secret";
                       user.email := None |} sync = Ok (r1, s1)
    /\ User_create 101 {| user.username := Some "alice";
                          user.password := Some "other";
                          user.email := Some "alice@x.com" |} s1 = Ok (r2, s2)
    /\ user.id r1 <> user.id r2.
Proof.
  assert (H : consistent sync) by reflexivity.
  destruct (C9_same_username_twice sync 100 101
              {| user.username := Some "alice";
                 user.password := Some "secret";
                 user.email := None |}
              {| user.username := Some "alice";
                 user.password := Some "other";
                 user.email := Some "alice@x.com" |} H eq_refl)
    as [r1 [s1 [r2 [s2 [E1 [E2 [Hne _]]]]]]].
  exists r1, s1, r2, s2. auto.
Defined.

(** C10.  [upVote] is declared by its type alone: a Vote row whose direction
    is absent is accepted (for an existing user and content that have no vote
    yet) and stored with [upVote] NULL, neither an upvote nor a downvote. *)
Theorem C10_vote_without_direction :
  forall (s : Store) (now uid cid : Z),
    In uid (user_ids s) ->
    In cid (content_ids s) ->
    ~ In (uid, cid) (vote_pairs s) ->
    let r := new_vote now {| vote.upVote := None;
                             vote.userId := uid;
                             vote.contentId := cid |} in
    Vote_create now {| vote.upVote := None;
                       vote.userId := uid;
                       vote.contentId := cid |} s
    = Ok (r, add_vote r s)
    /\ Vote_find uid cid (add_vote r s) = Some r
    /\ vote.upVote (vote.data r) = None
    /\ nullable "vote" "upVote" = true.
Proof.
  intros s now uid cid Hu Hc Hp r.
  split; [|split; [|split; reflexivity]].
  - rewrite Vote_create_eq. simpl.
    apply pair_existsb_not_In in Hp. apply Z_existsb_In in Hu, Hc.
    rewrite Hp, Hu, Hc. reflexivity.
  - unfold Vote_find. simpl. rewrite find_app_miss.
    + change (vote.pair r) with (uid, cid). rewrite pair_eqb_refl.
      reflexivity.
    + apply (Vote_find_None uid cid s). exact Hp.
Qed.

Lemma C10_witness :
  Vote_create 102 {| vote.upVote := None;
                     vote.userId := 1;
                     vote.contentId := 1 |} store_unvoted
  = Ok (new_vote 102 {| vote.upVote := None;
                        vote.userId := 1;
                        vote.contentId := 1 |},
        add_vote (new_vote 102 {| vote.upVote := None;
                                  vote.userId := 1;
                                  vote.contentId := 1 |}) store_unvoted).
Proof.
  apply (C10_vote_without_direction store_unvoted 102 1 1).
  - simpl. left. reflexivity.
  - simpl. left. reflexivity.
  - simpl. intros [].
Defined.

(** ** Two calls of [voteOnContent] in flight *)

(** The three statements of a call, run without interruption, are the call. *)
Lemma vote_steps_alone a s :
  vote_steps a 3 AwaitUser s
  = let (res, s') := voteOnContent (arg_now a) (arg_contentId a)
                                   (arg_userId a) (arg_isUpVote a) observe s in
    (CalledBack res, s').
Proof.
  unfold voteOnContent, observe. simpl.
  destruct (User_findById (arg_userId a) s) as [u|]; simpl; [|reflexivity].
  destruct (Content_findById (arg_contentId a) s) as [c|]; simpl;
    [|reflexivity].
  destruct (Vote_create _ _ s) as [[r s']|e]; reflexivity.
Qed.

Lemma vote_step_consistent a pc s :
  Consistent s -> Consistent (snd (vote_step a pc s)).
Proof.
  intros H. destruct pc as [|u|u c|res]; simpl.
  - destruct (User_findById _ s); exact H.
  - destruct (Content_findById _ s); exact H.
  - pose proof (Vote_create_consistent (arg_now a)
                  {| vote.upVote := Some (arg_isUpVote a);
                     vote.userId := user.id u;
                     vote.contentId := content.id c |} s H) as Hc.
    destruct (Vote_create _ _ s) as [[r s']|e]; exact Hc.
  - exact H.
Qed.

Lemma race_step_consistent a b turn r :
  Consistent (shared r) -> Consistent (shared (race_step a b turn r)).
Proof.
  intros H. unfold race_step. destruct turn.
  - pose proof (vote_step_consistent a (first r) _ H) as Hc.
    destruct (vote_step a (first r) (shared r)); exact Hc.
  - pose proof (vote_step_consistent b (second r) _ H) as Hc.
    destruct (vote_step b (second r) (shared r)); exact Hc.
Qed.

Lemma race_consistent a b schedule s :
  Consistent s -> Consistent (shared (race a b schedule s)).
Proof.
  unfold race. intros H.
  set (r0 := {| first := AwaitUser; second := AwaitUser; shared := s |}).
  assert (H0 : Consistent (shared r0)) by exact H.
  clearbody r0. revert r0 H0.
  induction schedule as [|turn schedule IH]; simpl; intros r0 H0; [exact H0|].
  apply IH. apply race_step_consistent. exact H0.
Qed.

Lemma race_snoc a b schedule turn s :
  race a b (schedule ++ [turn]) s
  = race_step a b turn (race a b schedule s).
Proof. unfold race. rewrite fold_left_app. reflexivity. Qed.

Lemma turns_snoc who schedule turn :
  turns who (schedule ++ [turn])
  = (turns who schedule + if Bool.eqb who turn then 1 else 0)%nat.
Proof.
  unfold turns. rewrite filter_app, length_app. simpl.
  destruct (Bool.eqb who turn); reflexivity.
Qed.

Lemma won_cases pc : won pc = [] \/ exists r, pc = CalledBack (Ok r).
Proof.
  destruct pc as [|u|u c|[r|e]]; simpl; auto. right. exists r. reflexivity.
Qed.

Lemma stands_won x uid cid n pc other r :
  stands x uid cid n pc other -> won pc = [r] -> r = cast x uid cid.
Proof.
  intros Hs Hw. destruct n as [|[|[|n]]]; simpl in Hs.
  - subst pc. discriminate.
  - destruct Hs as [u [-> _]]. discriminate.
  - destruct Hs as [u [c [-> _]]]. discriminate.
  - destruct Hs as [->|[-> _]]; simpl in Hw; [|discriminate].
    inversion Hw. reflexivity.
Qed.

Lemma stands_mono x uid cid n pc other other' :
  stands x uid cid n pc other ->
  (won other <> [] -> won other' <> []) ->
  stands x uid cid n pc other'.
Proof.
  intros Hs Hm. destruct n as [|[|[|n]]]; simpl in *; auto.
  destruct Hs as [H|[H Hw]]; [left; exact H|right; auto].
Qed.

Section OneTurn.
Variables (s : Store) (uid cid : Z).
Hypothesis Hu : In uid (user_ids s).
Hypothesis Hc : In cid (content_ids s).
Hypothesis Hfresh : ~ In (uid, cid) (vote_pairs s).

(** One statement of a call [x] for the pair, the other call standing
    still. *)
Lemma call_turn (x y : VoteArgs) (n m : nat) (pc other : VoteCall)
    (st : Store) :
  arg_userId x = uid -> arg_contentId x = cid ->
  users st = users s -> contents st = contents s ->
  votes st = votes s ++ won pc ++ won other ->
  won pc = [] \/ won other = [] ->
  stands x uid cid n pc other ->
  stands y uid cid m other pc ->
  let pc' := fst (vote_step x pc st) in
  let st' := snd (vote_step x pc st) in
  users st' = users s
  /\ contents st' = contents s
  /\ votes st' = votes s ++ won pc' ++ won other
  /\ (won pc' = [] \/ won other = [])
  /\ stands x uid cid (S n) pc' other
  /\ stands y uid cid m other pc'.
Proof.
  intros Hxu Hxc Husers Hcontents Hvotes Hone Hpc Hother.
  assert (Euser : forall i, User_findById i st = User_findById i s)
    by (intros i; unfold User_findById; rewrite Husers; reflexivity).
  assert (Econtent : forall i, Content_findById i st = Content_findById i s)
    by (intros i; unfold Content_findById; rewrite Hcontents; reflexivity).
  destruct (User_findById_In _ _ Hu) as [u0 [Eu0 Iu0]].
  destruct (Content_findById_In _ _ Hc) as [c0 [Ec0 Ic0]].
  destruct n as [|[|[|n]]]; simpl in Hpc.
  - (* the user lookup *)
    subst pc. simpl. rewrite Euser, Hxu, Eu0. simpl.
    split; [|split; [|split; [|split; [|split]]]]; auto.
    exists u0. auto.
  - (* the content lookup *)
    destruct Hpc as [u [-> Iu]]. simpl. rewrite Econtent, Hxc, Ec0. simpl.
    split; [|split; [|split; [|split; [|split]]]]; auto.
    exists u, c0. auto.
  - (* the insert *)
    destruct Hpc as [u [c [-> [Iu Ic]]]]. simpl in Hvotes. simpl.
    rewrite Vote_create_eq, Iu, Ic. simpl.
    assert (Eu : existsb (Z.eqb uid) (user_ids st) = true).
    { unfold user_ids. rewrite Husers. apply Z_existsb_In. exact Hu. }
    assert (Ec : existsb (Z.eqb cid) (content_ids st) = true).
    { unfold content_ids. rewrite Hcontents. apply Z_existsb_In. exact Hc. }
    destruct (won_cases other) as [Hw|[r Hr]].
    + (* the other call has not written: this one does *)
      rewrite Hw, app_nil_r in Hvotes.
      assert (Ep : existsb (pair_eqb (uid, cid)) (vote_pairs st) = false).
      { unfold vote_pairs. rewrite Hvotes. apply pair_existsb_not_In.
        exact Hfresh. }
      rewrite Ep, Eu, Ec. simpl. rewrite Hw, Hvotes.
      split; [|split; [|split; [|split; [|split]]]]; auto.
      eapply stands_mono; [exact Hother|]. intros _. discriminate.
    + (* the other call has written: a duplicate *)
      assert (Hwr : won other = [r]) by (rewrite Hr; reflexivity).
      pose proof (stands_won _ _ _ _ _ _ _ Hother Hwr) as Er.
      assert (Ep : existsb (pair_eqb (uid, cid)) (vote_pairs st) = true).
      { unfold vote_pairs. rewrite Hvotes, Hwr, Er. apply pair_existsb_In.
        rewrite map_app, in_app_iff. right. left. reflexivity. }
      rewrite Ep. simpl.
      split; [|split; [|split; [|split; [|split]]]]; auto.
      right. split; [reflexivity|]. rewrite Hwr. discriminate.
  - (* the call is over *)
    destruct Hpc as [->|[-> Hw]]; simpl;
      (split; [|split; [|split; [|split; [|split]]]]; auto).
Qed.

Variables (a b : VoteArgs).
Hypothesis Hau : arg_userId a = uid.
Hypothesis Hac : arg_contentId a = cid.
Hypothesis Hbu : arg_userId b = uid.
Hypothesis Hbc : arg_contentId b = cid.

Lemma race_invariant schedule :
  race_inv s a b uid cid (turns true schedule) (turns false schedule)
           (race a b schedule s).
Proof.
  induction schedule as [|turn schedule IH] using rev_ind.
  - constructor; simpl; auto. rewrite app_nil_r. reflexivity.
  - rewrite race_snoc, !turns_snoc.
    destruct IH as [I1 I2 I3 I4 I5 I6].
    set (r := race a b schedule s) in *.
    destruct turn; simpl Bool.eqb; cbv iota;
      rewrite Nat.add_0_r, Nat.add_1_r; unfold race_step.
    + pose proof (call_turn a b _ _ _ _ _ Hau Hac I1 I2 I3 I4 I5 I6) as H.
      destruct (vote_step a (first r) (shared r)) as [pc st]. simpl in H.
      destruct H as [H1 [H2 [H3 [H4 [H5 H6]]]]].
      constructor; simpl; auto.
    + assert (I3' : votes (shared r)
                    = votes s ++ won (second r) ++ won (first r)).
      { rewrite I3. destruct I4 as [E|E]; rewrite E; simpl;
          rewrite ?app_nil_r; reflexivity. }
      assert (I4' : won (second r) = [] \/ won (first r) = []) by tauto.
      pose proof (call_turn b a _ _ _ _ _ Hbu Hbc I1 I2 I3' I4' I6 I5) as H.
      destruct (vote_step b (second r) (shared r)) as [pc st]. simpl in H.
      destruct H as [H1 [H2 [H3 [H4 [H5 H6]]]]].
      constructor; simpl; auto; [|tauto].
      rewrite H3. destruct H4 as [E|E]; rewrite E; simpl;
        rewrite ?app_nil_r; reflexivity.
Qed.
End OneTurn.

(** C8.  Two calls of [voteOnContent] for the same (userId, contentId) pair
    run concurrently, their statements interleaved in any order (in
    particular two calls of opposite directions).  Started on a consistent
    store, no interleaving ever leaves more than one stored vote for the
    pair.  When the user and the content exist and the pair has no vote yet,
    every interleaving in which both calls complete ends with exactly one
    call succeeding, the other failing with [DuplicateVote], and exactly one
    stored vote for the pair: the one of the call that succeeded. *)
Theorem C8_concurrent_votes :
  forall (s : Store) (a b : VoteArgs) (uid cid : Z),
    consistent s ->
    arg_userId a = uid -> arg_contentId a = cid ->
    arg_userId b = uid -> arg_contentId b = cid ->
    (forall schedule,
        (votes_of_pair uid cid (shared (race a b schedule s)) <= 1)%nat)
    /\ (In uid (user_ids s) ->
        In cid (content_ids s) ->
        ~ In (uid, cid) (vote_pairs s) ->
        forall schedule,
          (3 <= turns true schedule)%nat ->
          (3 <= turns false schedule)%nat ->
          ((first (race a b schedule s) = CalledBack (Ok (cast a uid cid))
            /\ second (race a b schedule s) = CalledBack (Err DuplicateVote)
            /\ votes (shared (race a b schedule s))
               = votes s ++ [cast a uid cid])
           \/ (first (race a b schedule s) = CalledBack (Err DuplicateVote)
               /\ second (race a b schedule s) = CalledBack (Ok (cast b uid cid))
               /\ votes (shared (race a b schedule s))
                  = votes s ++ [cast b uid cid]))
          /\ votes_of_pair uid cid (shared (race a b schedule s)) = 1%nat).
Proof.
  intros s a b uid cid H Hau Hac Hbu Hbc. apply consistent_iff in H. split.
  - intros schedule. apply votes_of_pair_le_one.
    apply (one_vote_per_pair _ (race_consistent a b schedule s H)).
  - intros Hu Hc Hfresh schedule H1 H2.
    destruct (race_invariant s uid cid Hu Hc Hfresh a b Hau Hac Hbu Hbc
                schedule) as [_ _ I3 I4 I5 I6].
    destruct (turns true schedule) as [|[|[|n1]]]; try lia.
    destruct (turns false schedule) as [|[|[|n2]]]; try lia.
    simpl in I5, I6.
    assert (Hcount : forall r,
               votes (shared (race a b schedule s)) = votes s ++ [cast r uid cid] ->
               votes_of_pair uid cid (shared (race a b schedule s)) = 1%nat).
    { intros r E. unfold votes_of_pair. rewrite E, filter_app, length_app.
      rewrite filter_pair_nil by exact Hfresh. simpl.
      change (vote.pair (cast r uid cid)) with (uid, cid).
      rewrite pair_eqb_refl. reflexivity. }
    destruct I5 as [E1|[E1 W2]]; destruct I6 as [E2|[E2 W1]].
    + exfalso. rewrite E1, E2 in I4. simpl in I4.
      destruct I4; discriminate.
    + rewrite E1, E2 in I3. simpl in I3. split; [left; auto|].
      apply (Hcount a). exact I3.
    + rewrite E1, E2 in I3. simpl in I3. split; [right; auto|].
      apply (Hcount b). exact I3.
    + exfalso. apply W2. rewrite E2. reflexivity.
Qed.

Lemma C8_witness :
  (first (race upvote_example downvote_example
               [true; false; false; true; false; true] store_unvoted)
   = CalledBack (Err DuplicateVote)
   /\ second (race upvote_example downvote_example
                   [true; false; false; true; false; true] store_unvoted)
      = CalledBack (Ok (cast downvote_example 1 1)))
  /\ votes_of_pair 1 1
       (shared (race upvote_example downvote_example
                     [true; false; false; true; false; true] store_unvoted))
     = 1%nat.
Proof.
  assert (H : consistent store_unvoted) by reflexivity.
  assert (Hu : In 1 (user_ids store_unvoted)) by (simpl; left; reflexivity).
  assert (Hc : In 1 (content_ids store_unvoted)) by (simpl; left; reflexivity).
  assert (Hp : ~ In (1, 1) (vote_pairs store_unvoted)) by (simpl; intros []).
  assert (H1 : (3 <= turns true [true; false; false; true; false; true])%nat)
    by (unfold turns; simpl; lia).
  assert (H2 : (3 <= turns false [true; false; false; true; false; true])%nat)
    by (unfold turns; simpl; lia).
  pose proof (proj2 (C8_concurrent_votes store_unvoted upvote_example
                       downvote_example 1 1 H eq_refl eq_refl eq_refl eq_refl)
                    Hu Hc Hp _ H1 H2) as [_ Hcount].
  split; [split; reflexivity|exact Hcount].
Defined.

(* ================================================================= *)
(** * Further properties of the schema and of the store *)

(** ** Identifiers *)

Lemma existsb_false_NoDup_snoc (l : list Z) k :
  NoDup l -> existsb (Z.eqb k) l = false -> NoDup (l ++ [k]).
Proof.
  intros H E. apply NoDup_snoc; [exact H|]. apply Z_existsb_not_In. exact E.
Qed.

Lemma User_create_unique_ids now v s :
  unique_ids s -> unique_ids (committed (User_create now v s) s).
Proof.
  intros [Hu Hc]. rewrite User_create_eq.
  destruct (existsb _ _) eqn:E; simpl; [split; assumption|].
  split; [|exact Hc]. unfold user_ids. simpl. rewrite map_app. simpl.
  apply existsb_false_NoDup_snoc; assumption.
Qed.

Lemma Content_create_unique_ids now v s :
  unique_ids s -> unique_ids (committed (Content_create now v s) s).
Proof.
  intros [Hu Hc]. rewrite Content_create_eq.
  assert (Hadd : unique_ids (add_content (new_content now v s) s)
                 \/ existsb (Z.eqb (contents_AUTO_INCREMENT s)) (content_ids s)
                    = true).
  { destruct (existsb _ (content_ids s)) eqn:E; [right; reflexivity|left].
    split; [exact Hu|]. unfold content_ids. simpl. rewrite map_app. simpl.
    apply existsb_false_NoDup_snoc; assumption. }
  destruct (existsb _ (content_ids s)) eqn:E; simpl; [split; assumption|].
  destruct Hadd as [Hadd|Hadd]; [|discriminate].
  destruct (content.userId v) as [u|]; simpl; [|exact Hadd].
  destruct (existsb _ (user_ids s)); simpl; [exact Hadd|split; assumption].
Qed.

Lemma Vote_create_unique_ids now v s :
  unique_ids s -> unique_ids (committed (Vote_create now v s) s).
Proof.
  intros H. rewrite Vote_create_eq.
  destruct (existsb _ (vote_pairs s)); simpl; [exact H|].
  destruct (existsb _ (user_ids s)); simpl; [|exact H].
  destruct (existsb _ (content_ids s)); simpl; exact H.
Qed.

Lemma apply_unique_ids op s : unique_ids s -> unique_ids (apply op s).
Proof.
  intros H. destruct op; simpl.
  - rewrite createNewUser_store. apply User_create_unique_ids. exact H.
  - destruct (createNewContent_store now userId url title s) as [E|[u [_ E]]];
      rewrite E; [exact H|]. apply Content_create_unique_ids. exact H.
  - destruct (voteOnContent_store now contentId userId isUpVote s)
      as [E|[u [c [_ [_ E]]]]]; rewrite E; [exact H|].
    apply Vote_create_unique_ids. exact H.
  - apply User_create_unique_ids. exact H.
  - apply Content_create_unique_ids. exact H.
  - apply Vote_create_unique_ids. exact H.
  - destruct H as [Hu Hc]. rewrite User_destroy_eq. split.
    + unfold user_ids. simpl. apply NoDup_map_filter. exact Hu.
    + unfold content_ids. simpl. rewrite map_id_clear_owner. exact Hc.
  - destruct H as [Hu Hc]. rewrite Content_destroy_eq. split; [exact Hu|].
    unfold content_ids. simpl. apply NoDup_map_filter. exact Hc.
  - exact H.
Qed.

Lemma history_unique_ids ops : unique_ids (run ops sync).
Proof.
  assert (G : forall s, unique_ids s -> unique_ids (run ops s)).
  { unfold run. induction ops as [|op ops IH]; simpl; intros s H; [exact H|].
    apply IH. apply apply_unique_ids. exact H. }
  apply G. split; constructor.
Qed.

Lemma find_by_unique_id {A} (f : A -> Z) (l : list A) (r : A) :
  NoDup (map f l) -> In r l -> find (fun x => f x =? f r) l = Some r.
Proof.
  induction l as [|x t IH]; simpl; intros Hn Hin; [contradiction|].
  inversion Hn; subst. destruct Hin as [->|Hin].
  - rewrite Z.eqb_refl. reflexivity.
  - destruct (f x =? f r) eqn:E; [|auto].
    exfalso. apply Z.eqb_eq in E. apply H1. rewrite E. apply in_map. exact Hin.
Qed.

(** X1.  After any history, every vote refers to a stored user and a stored
    content, and every owner reference that is set refers to a stored user:
    inserts are checked against the foreign keys and deletes apply their
    ON DELETE actions, so no reference dangles. *)
Theorem X1_no_dangling_reference :
  forall (ops : list Operation),
    (forall r, In r (votes (run ops sync)) ->
               In (vote.userId (vote.data r)) (user_ids (run ops sync))
               /\ In (vote.contentId (vote.data r))
                     (content_ids (run ops sync)))
    /\ (forall c u, In c (contents (run ops sync)) ->
                    content.owner c = Some u ->
                    In u (user_ids (run ops sync))).
Proof.
  intros ops. pose proof (history_consistent ops) as H. split.
  - apply (vote_refs _ H).
  - apply (owners_exist _ H).
Qed.

Lemma X1_witness :
  In 1 (user_ids (run history_example sync))
  /\ In 1 (content_ids (run history_example sync)).
Proof.
  apply (proj1 (X1_no_dangling_reference history_example)
           (new_vote 102 {| vote.upVote := Some true;
                            vote.userId := 1;
                            vote.contentId := 1 |})).
  simpl. left. reflexivity.
Defined.

(** X2.  After any history the [id]s of [users] are pairwise distinct, and so
    are those of [contents]; hence [findById] returns a row exactly when that
    row is stored under the identifier asked for. *)
Theorem X2_findById_exact :
  forall (ops : list Operation) (i : Z),
    NoDup (user_ids (run ops sync))
    /\ NoDup (content_ids (run ops sync))
    /\ (forall r, User_findById i (run ops sync) = Some r
                  <-> In r (users (run ops sync)) /\ user.id r = i)
    /\ (forall r, Content_findById i (run ops sync) = Some r
                  <-> In r (contents (run ops sync)) /\ content.id r = i).
Proof.
  intros ops i. destruct (history_unique_ids ops) as [Hu Hc].
  split; [exact Hu|]. split; [exact Hc|]. split; intros r; split.
  - unfold User_findById. intros E. apply find_some in E.
    destruct E as [Hin He]. apply Z.eqb_eq in He. auto.
  - intros [Hin <-]. apply (find_by_unique_id user.id); assumption.
  - unfold Content_findById. intros E. apply find_some in E.
    destruct E as [Hin He]. apply Z.eqb_eq in He. auto.
  - intros [Hin <-]. apply (find_by_unique_id content.id); assumption.
Qed.

Lemma X2_witness :
  User_findById 1 (run history_example sync)
  = Some (new_user 100 {| user.username := Some "alice";
                          user.password := Some "secret";
                          user.email := None |} sync).
Proof.
  apply (proj1 (proj2 (proj2 (X2_findById_exact history_example 1)))).
  split; [simpl; left; reflexivity|reflexivity].
Defined.

(** ** Inserts, constraint by constraint *)

(** X3.  An insert into [votes] succeeds exactly when the user exists, the
    content exists and the pair has no vote yet; it then appends the row built
    from the values.  So one user may vote on many contents and one content
    may be voted on by many users; a vote for a missing user, or on a missing
    content, is rejected by the corresponding foreign key. *)
Theorem X3_Vote_create_succeeds_iff :
  forall (s : Store) (now : Z) (v : vote.values),
    ((exists r s', Vote_create now v s = Ok (r, s'))
     <-> In (vote.userId v) (user_ids s)
         /\ In (vote.contentId v) (content_ids s)
         /\ ~ In (vote.userId v, vote.contentId v) (vote_pairs s))
    /\ (forall r s', Vote_create now v s = Ok (r, s') ->
                     r = new_vote now v /\ s' = add_vote r s)
    /\ (~ In (vote.userId v, vote.contentId v) (vote_pairs s) ->
        ~ In (vote.userId v) (user_ids s) ->
        Vote_create now v s = Err (ForeignKeyConstraintError "votes" "userId"))
    /\ (~ In (vote.userId v, vote.contentId v) (vote_pairs s) ->
        In (vote.userId v) (user_ids s) ->
        ~ In (vote.contentId v) (content_ids s) ->
        Vote_create now v s
        = Err (ForeignKeyConstraintError "votes" "contentId")).
Proof.
  intros s now v. rewrite Vote_create_eq.
  destruct (existsb (pair_eqb (vote.userId v, vote.contentId v))
                    (vote_pairs s)) eqn:Ep;
    [apply pair_existsb_In in Ep|apply pair_existsb_not_In in Ep];
  (destruct (existsb (Z.eqb (vote.userId v)) (user_ids s)) eqn:Eu;
    [apply Z_existsb_In in Eu|apply Z_existsb_not_In in Eu]);
  (destruct (existsb (Z.eqb (vote.contentId v)) (content_ids s)) eqn:Ec;
    [apply Z_existsb_In in Ec|apply Z_existsb_not_In in Ec]);
  (split; [split; [intros [r [s' E]]; discriminate E || auto
                  |intros [Hu [Hc Hp]]; try contradiction; eauto]
          |split; [intros r s' E; try discriminate E;
                   inversion E; subst; auto
                  |split; intros; try contradiction; reflexivity]]).
Qed.

Lemma X3_witness :
  (exists r s', Vote_create 102 {| vote.upVote := Some true;
                                   vote.userId := 1;
                                   vote.contentId := 1 |} store_unvoted
                = Ok (r, s'))
  /\ Vote_create 102 {| vote.upVote := Some true;
                        vote.userId := 7;
                        vote.contentId := 1 |} store_unvoted
     = Err (ForeignKeyConstraintError "votes" "userId").
Proof.
  split.
  - apply (proj1 (X3_Vote_create_succeeds_iff store_unvoted 102 _)).
    simpl. split; [left; reflexivity|]. split; [left; reflexivity|].
    intros [].
  - apply (proj1 (proj2 (proj2 (X3_Vote_create_succeeds_iff
                                  store_unvoted 102 _)))).
    + simpl. intros [].
    + simpl. intros [H|[]]. discriminate.
Defined.

(** X4.  On a consistent store an insert into [contents] depends on the owner
    reference alone: whatever the url and the title (absent, or equal to
    those of a stored row), the row is stored when the reference is absent or
    names a stored user, and the insert is rejected by the foreign key, the
    store staying as it was, when it names a user that is not stored. *)
Theorem X4_Content_create_owner_only :
  forall (s : Store) (now : Z) (v : content.values),
    consistent s ->
    ((forall u, content.userId v = Some u -> In u (user_ids s)) ->
     Content_create now v s
     = Ok (new_content now v s, add_content (new_content now v s) s))
    /\ (forall u, content.userId v = Some u -> ~ In u (user_ids s) ->
                  Content_create now v s
                  = Err (ForeignKeyConstraintError "contents" "userId")
                  /\ committed (Content_create now v s) s = s).
Proof.
  intros s now v H. apply consistent_iff in H.
  assert (E : existsb (Z.eqb (contents_AUTO_INCREMENT s)) (content_ids s)
              = false).
  { apply Z_existsb_not_In. intros Hin.
    apply (content_ids_issued s H) in Hin. lia. }
  rewrite Content_create_eq, E. split.
  - intros Hv. destruct (content.userId v) as [u|]; [|reflexivity].
    assert (Eu : existsb (Z.eqb u) (user_ids s) = true)
      by (apply Z_existsb_In; auto).
    rewrite Eu. reflexivity.
  - intros u Hu Hnot. rewrite Hu. apply Z_existsb_not_In in Hnot.
    rewrite Hnot. split; reflexivity.
Qed.

Lemma X4_witness :
  Content_create 104 {| content.url := Some "http://x.com";
                        content.title := None;
                        content.userId := Some 1 |} store_example
  = Ok (new_content 104 {| content.url := Some "http://x.com";
                           content.title := None;
                           content.userId := Some 1 |} store_example,
        add_content (new_content 104 {| content.url := Some "http://x.com";
                                        content.title := None;
                                        content.userId := Some 1 |}
                                 store_example) store_example)
  /\ Content_create 104 {| content.url := Some "http://x.com";
                           content.title := None;
                           content.userId := Some 7 |} store_example
     = Err (ForeignKeyConstraintError "contents" "userId").
Proof.
  assert (H : consistent store_example) by reflexivity.
  split.
  - apply (proj1 (X4_Content_create_owner_only store_example 104 _ H)).
    simpl. intros u E. inversion E. left. reflexivity.
  - apply (proj2 (X4_Content_create_owner_only store_example 104 _ H) 7).
    + reflexivity.
    + simpl. intros [E|[]]. discriminate.
Defined.

(** ** The votes of a content *)

Lemma NoDup_voters (l : list vote.row) cid :
  NoDup (map vote.pair l) ->
  NoDup (map (fun r => vote.userId (vote.data r))
             (filter (votes_on_content cid) l)).
Proof.
  induction l as [|x t IH]; simpl; intros H; [constructor|].
  inversion H; subst.
  destruct (votes_on_content cid x) eqn:Ex; simpl; [|auto].
  constructor; [|auto]. intros Hin. apply H2.
  apply in_map_iff in Hin. destruct Hin as [y [Hy Hin]].
  apply filter_In in Hin. destruct Hin as [Hin Ey].
  apply in_map_iff. exists y. split; [|exact Hin].
  unfold votes_on_content in Ex, Ey. apply Z.eqb_eq in Ex, Ey.
  unfold vote.pair. rewrite Hy, Ex, Ey. reflexivity.
Qed.

(** X5.  After any history, [getVotes] of a content lists each voter once: no
    user appears twice among the votes of a content, every voter is a stored
    user, and a content never has more votes than there are users. *)
Theorem X5_getVotes_one_per_user :
  forall (ops : list Operation) (cid : Z),
    NoDup (voters cid (run ops sync))
    /\ (forall u, In u (voters cid (run ops sync)) ->
                  In u (user_ids (run ops sync)))
    /\ (List.length (getVotes cid (run ops sync))
        <= List.length (users (run ops sync)))%nat.
Proof.
  intros ops cid. pose proof (history_consistent ops) as H.
  assert (Hn : NoDup (voters cid (run ops sync))).
  { unfold voters, getVotes. apply NoDup_voters.
    apply (one_vote_per_pair _ H). }
  assert (Hi : forall u, In u (voters cid (run ops sync)) ->
                         In u (user_ids (run ops sync))).
  { intros u Hu. unfold voters, getVotes in Hu. apply in_map_iff in Hu.
    destruct Hu as [r [Hr Hin]]. apply filter_In in Hin.
    rewrite <- Hr. apply (vote_refs _ H). apply Hin. }
  split; [exact Hn|]. split; [exact Hi|].
  pose proof (NoDup_incl_length Hn Hi) as Hl.
  unfold voters, user_ids in Hl. rewrite !length_map in Hl. exact Hl.
Qed.

Lemma X5_witness : In 1 (user_ids (run history_example sync)).
Proof.
  apply (proj1 (proj2 (X5_getVotes_one_per_user history_example 1)) 1).
  simpl. left. reflexivity.
Defined.

(** ** Deletes *)

Lemma filter_all {A} (p : A -> bool) (l : list A) :
  (forall x, In x l -> p x = true) -> filter p l = l.
Proof.
  induction l as [|x t IH]; simpl; intros H; [reflexivity|].
  rewrite (H x) by (left; reflexivity). f_equal. apply IH.
  intros y Hy. apply H. right. exact Hy.
Qed.

Lemma map_unchanged {A} (f : A -> A) (l : list A) :
  (forall x, In x l -> f x = x) -> map f l = l.
Proof.
  induction l as [|x t IH]; simpl; intros H; [reflexivity|].
  rewrite (H x) by (left; reflexivity). f_equal. apply IH.
  intros y Hy. apply H. right. exact Hy.
Qed.

(** X6.  On a consistent store, deleting a user that is not stored, or a
    content that is not stored, changes nothing: no row of any table goes,
    no owner reference is cleared. *)
Theorem X6_delete_missing_is_noop :
  forall (s : Store) (uid cid : Z),
    consistent s ->
    (~ In uid (user_ids s) -> User_destroy uid s = s)
    /\ (~ In cid (content_ids s) -> Content_destroy cid s = s).
Proof.
  intros s uid cid H. apply consistent_iff in H.
  destruct H as [H1 H2 H3 H4 H5]. split; intros Hnot.
  - rewrite User_destroy_eq. destruct s as [us cs vs a b]. simpl in *.
    f_equal.
    + apply filter_all. intros x Hx. apply negb_true_iff.
      apply Z.eqb_neq. intros E. apply Hnot. unfold user_ids. simpl.
      rewrite <- E. apply in_map. exact Hx.
    + apply map_unchanged. intros x Hx.
      destruct (owned_by uid x) eqn:Eo; [|reflexivity].
      exfalso. apply Hnot. unfold owned_by, holds in Eo.
      destruct (content.owner x) as [u|] eqn:Eu; [|discriminate].
      apply Z.eqb_eq in Eo. subst u. apply (H4 x uid Hx Eu).
    + apply filter_all. intros x Hx. apply negb_true_iff.
      apply Z.eqb_neq. intros E. apply Hnot. rewrite <- E.
      apply (H5 x Hx).
  - rewrite Content_destroy_eq. destruct s as [us cs vs a b]. simpl in *.
    f_equal.
    + apply filter_all. intros x Hx. apply negb_true_iff.
      apply Z.eqb_neq. intros E. apply Hnot. unfold content_ids. simpl.
      rewrite <- E. apply in_map. exact Hx.
    + apply filter_all. intros x Hx. apply negb_true_iff.
      apply Z.eqb_neq. intros E. apply Hnot. rewrite <- E.
      apply (H5 x Hx).
Qed.

Lemma X6_witness :
  User_destroy 7 store_example = store_example
  /\ Content_destroy 7 store_example = store_example.
Proof.
  assert (H : consistent store_example) by reflexivity.
  destruct (X6_delete_missing_is_noop store_example 7 7 H) as [Hu Hc].
  split.
  - apply Hu. simpl. intros [E|[]]. discriminate.
  - apply Hc. simpl. intros [E|[]]. discriminate.
Defined.

(** X7.  What deleting a user leaves alone: every other user, every content
    row (same identifier, url, title and timestamps, the rows of the deleted
    user included) and every vote cast by another user, also a vote on a
    content the deleted user owned.  Deleting a content leaves alone all
    users, every other content and every vote on another content. *)
Theorem X7_delete_keeps_the_rest :
  forall (s : Store) (uid cid : Z),
    (users (Content_destroy cid s) = users s
     /\ (forall c, In c (contents s) -> content.id c <> cid ->
                   In c (contents (Content_destroy cid s)))
     /\ (forall r, In r (votes s) -> vote.contentId (vote.data r) <> cid ->
                   In r (votes (Content_destroy cid s))))
    /\ (forall u, In u (users s) -> user.id u <> uid ->
                  In u (users (User_destroy uid s)))
    /\ (forall c, In c (contents s) ->
          exists c', In c' (contents (User_destroy uid s))
                     /\ content.id c' = content.id c
                     /\ content.url (content.data c')
                        = content.url (content.data c)
                     /\ content.title (content.data c')
                        = content.title (content.data c)
                     /\ content.createdAt c' = content.createdAt c
                     /\ content.updatedAt c' = content.updatedAt c
                     /\ (content.owner c <> Some uid -> c' = c))
    /\ (forall r, In r (votes s) -> vote.userId (vote.data r) <> uid ->
                  In r (votes (User_destroy uid s))).
Proof.
  intros s uid cid. rewrite Content_destroy_eq, User_destroy_eq. simpl.
  split; [split; [reflexivity|split]|split; [|split]].
  - intros c Hc Hne. apply filter_In. split; [exact Hc|].
    apply negb_true_iff. apply Z.eqb_neq. exact Hne.
  - intros r Hr Hne. apply filter_In. split; [exact Hr|].
    apply negb_true_iff. apply Z.eqb_neq. exact Hne.
  - intros u Hu Hne. apply filter_In. split; [exact Hu|].
    apply negb_true_iff. apply Z.eqb_neq. exact Hne.
  - intros c Hc.
    exists (if owned_by uid c then clear_owner c else c).
    split; [apply in_map_iff; exists c; auto|].
    destruct (owned_by uid c) eqn:Eo; simpl; repeat split; auto.
    intros Hne. exfalso. apply Hne. unfold owned_by, holds in Eo.
    destruct (content.owner c) as [u|]; [|discriminate].
    apply Z.eqb_eq in Eo. subst u. reflexivity.
  - intros r Hr Hne. apply filter_In. split; [exact Hr|].
    apply negb_true_iff. apply Z.eqb_neq. exact Hne.
Qed.

Lemma X7_witness :
  exists c', In c' (contents (User_destroy 1 store_example))
             /\ content.id c' = 1
             /\ content.url (content.data c') = Some "http://x.com".
Proof.
  destruct (proj1 (proj2 (proj2 (X7_delete_keeps_the_rest store_example 1 1)))
              (new_content 101 {| content.url := Some "http://x.com";
                                  content.title := Some "X";
                                  content.userId := Some 1 |}
                           (add_user (new_user 100
                                        {| user.username := Some "alice";
                                           user.password := Some "secret";
                                           user.email := None |} sync) sync)))
    as [c' [Hin [Hid [Hurl _]]]].
  - simpl. left. reflexivity.
  - exists c'. split; [exact Hin|]. split; [exact Hid|exact Hurl].
Defined.

(** X8.  Whatever the store, once a content is deleted a vote on it is
    rejected by the foreign key [contentId] (for a stored user), and once a
    user is deleted a vote by that user is rejected by the foreign key
    [userId]: the cascade has removed the votes of the pair, so it is the
    reference, not the primary key, that fails. *)
Theorem X8_vote_after_delete_rejected :
  forall (s : Store) (now uid cid : Z) (up : option bool),
    (In uid (user_ids s) ->
     Vote_create now {| vote.upVote := up;
                        vote.userId := uid;
                        vote.contentId := cid |} (Content_destroy cid s)
     = Err (ForeignKeyConstraintError "votes" "contentId"))
    /\ Vote_create now {| vote.upVote := up;
                          vote.userId := uid;
                          vote.contentId := cid |} (User_destroy uid s)
       = Err (ForeignKeyConstraintError "votes" "userId").
Proof.
  intros s now uid cid up. split.
  - intros Hu. rewrite Vote_create_eq. simpl vote.userId. simpl vote.contentId.
    assert (Ep : existsb (pair_eqb (uid, cid))
                         (vote_pairs (Content_destroy cid s)) = false).
    { apply pair_existsb_not_In. rewrite Content_destroy_eq.
      unfold vote_pairs. simpl. intros Hin. apply in_map_iff in Hin.
      destruct Hin as [r [Hr Hin]]. apply filter_In in Hin.
      destruct Hin as [_ Hk]. unfold votes_on_content in Hk.
      inversion Hr as [[Ha Hb]]. rewrite Hb, Z.eqb_refl in Hk.
      discriminate. }
    assert (Eu : existsb (Z.eqb uid) (user_ids (Content_destroy cid s))
                 = true).
    { apply Z_existsb_In. rewrite Content_destroy_eq. exact Hu. }
    assert (Ec : existsb (Z.eqb cid) (content_ids (Content_destroy cid s))
                 = false).
    { apply Z_existsb_not_In. rewrite Content_destroy_eq.
      unfold content_ids. simpl. intros Hin. apply in_map_iff in Hin.
      destruct Hin as [x [Hx Hin]]. apply filter_In in Hin.
      destruct Hin as [_ Hk]. rewrite Hx, Z.eqb_refl in Hk. discriminate. }
    rewrite Ep, Eu, Ec. reflexivity.
  - rewrite Vote_create_eq. simpl vote.userId. simpl vote.contentId.
    assert (Ep : existsb (pair_eqb (uid, cid))
                         (vote_pairs (User_destroy uid s)) = false).
    { apply pair_existsb_not_In. rewrite User_destroy_eq.
      unfold vote_pairs. simpl. intros Hin. apply in_map_iff in Hin.
      destruct Hin as [r [Hr Hin]]. apply filter_In in Hin.
      destruct Hin as [_ Hk]. unfold votes_of_user in Hk.
      inversion Hr as [[Ha Hb]]. rewrite Ha, Z.eqb_refl in Hk.
      discriminate. }
    assert (Eu : existsb (Z.eqb uid) (user_ids (User_destroy uid s))
                 = false).
    { apply Z_existsb_not_In. rewrite User_destroy_eq.
      unfold user_ids. simpl. intros Hin. apply in_map_iff in Hin.
      destruct Hin as [x [Hx Hin]]. apply filter_In in Hin.
      destruct Hin as [_ Hk]. rewrite Hx, Z.eqb_refl in Hk. discriminate. }
    rewrite Ep, Eu. reflexivity.
Qed.

Lemma X8_witness :
  Vote_create 105 {| vote.upVote := Some true;
                     vote.userId := 1;
                     vote.contentId := 1 |} (Content_destroy 1 store_example)
  = Err (ForeignKeyConstraintError "votes" "contentId").
Proof.
  apply (proj1 (X8_vote_after_delete_rejected store_example 105 1 1
                  (Some true))).
  simpl. left. reflexivity.
Defined.

(** ** The associations, on any registry *)












